(** * Bounce fleet dashboard: risk scoring and alerting pipeline

    A shallow embedding of the pipeline of [dashboard.py]: the fleet
    metrics of the key-metrics row, the high-risk table, the alert texts
    and the two SMS loops of the "Send Alerts" action; then the rest of
    the script that computes: the generation of the scooters, the hub
    filter and the hub table, the Twilio settings, the table shown and
    the progress loop of "Sync Fleet Data".

    Conventions of the embedding.
    - A pandas DataFrame is the list of its rows; a column is the list
      obtained by projecting a field; a boolean mask is a [list bool] of
      the same length.  Comparisons of a column with a scalar, [|] on
      masks, boolean indexing and [.loc[mask, col] += s] are written
      column-wise, as the script does.
    - A [datetime] is a number of microseconds; [.dt.days] of a
      difference is the floor of its quotient by one day.
    - A Python float that holds a finite value is the rational it
      denotes; [NaN] is a value of its own (rounding is not modelled).
    - Each call of [datetime.datetime.now()] is a parameter of the
      function that makes it. *)

From Stdlib Require Import List String Ascii Bool ZArith QArith Lia.
From Stdlib Require Import DecimalString DecimalNat Lqa Sorted.
Import ListNotations.

Local Open Scope list_scope.
Local Open Scope string_scope.

(** ** Data model *)

Inductive Status := Available | OnTrip | Maintenance | Alert.

Definition Status_eqb (a b : Status) : bool :=
  match a, b with
  | Available, Available | OnTrip, OnTrip
  | Maintenance, Maintenance | Alert, Alert => true
  | _, _ => false
  end.

(** One row of [df_scooters] (the dictionary built in
    [generate_sample_data]). *)
Record scooter := {
  scooter_id : string;
  hub : string;
  status : Status;
  battery_level : Q;
  lat : Q;
  lon : Q;
  last_service : Z;
  total_trips : Z;
  revenue_today : Q;
  fault_reports : Z;
  uptime_percentage : Q
}.

(** The two values read from the sidebar sliders. *)
Record ThresholdConfig := {
  battery_threshold : Z;
  service_days : Z
}.

(** The sliders as the script declares them. *)
Record Slider := { min_value : Z; max_value : Z; value : Z }.

Definition battery_threshold_slider : Slider :=
  {| min_value := 10; max_value := 50; value := 20 |}.

Definition service_days_slider : Slider :=
  {| min_value := 30; max_value := 90; value := 60 |}.

Inductive pyfloat := Fin (q : Q) | NaN.

(** ** Column operations *)

Definition Qlt_bool (x y : Q) : bool :=
  (Qnum x * QDen y <? Qnum y * QDen x)%Z.

Definition series_lt (s : list Q) (c : Q) : list bool :=
  map (fun x => Qlt_bool x c) s.

Definition series_ge (s : list Z) (c : Z) : list bool :=
  map (fun x => (c <=? x)%Z) s.

Definition series_gt (s : list Z) (c : Z) : list bool :=
  map (fun x => (c <? x)%Z) s.

Definition mask_or (a b : list bool) : list bool :=
  map (fun p => fst p || snd p) (combine a b).

(** [df[mask]] *)
Fixpoint boolean_index {A : Type} (rows : list A) (mask : list bool) : list A :=
  match rows, mask with
  | r :: rows', b :: mask' =>
      if b then r :: boolean_index rows' mask' else boolean_index rows' mask'
  | _, _ => []
  end.

(** [df.loc[mask, col] += s] on a column of strings *)
Fixpoint loc_iadd (col : list string) (mask : list bool) (s : string) : list string :=
  match col, mask with
  | c :: col', b :: mask' => (if b then c ++ s else c) :: loc_iadd col' mask' s
  | _, _ => col
  end.

Definition us_per_day : Z := 86400000000.

(** [(now - col).dt.days] *)
Definition dt_days (now : Z) (col : list Z) : list Z :=
  map (fun t => ((now - t) / us_per_day)%Z) col.

(** ** RiskEvaluator: the high-risk table *)

Definition high_risk_mask (cfg : ThresholdConfig) (now : Z) (df : list scooter)
  : list bool :=
  mask_or
    (mask_or
       (mask_or
          (series_lt (map battery_level df) (inject_Z (battery_threshold cfg)))
          (series_ge (map fault_reports df) 3))
       (series_lt (map uptime_percentage df) 85))
    (series_gt (dt_days now (map last_service df)) (service_days cfg)).

Definition high_risk_rows (cfg : ThresholdConfig) (now : Z) (df : list scooter)
  : list scooter :=
  boolean_index df (high_risk_mask cfg now df).

(** The column [risk_reason], starting from [''] in every row. *)
Definition risk_reason_column (cfg : ThresholdConfig) (now : Z)
  (high_risk : list scooter) : list string :=
  let c0 := map (fun _ => "") high_risk in
  let c1 := loc_iadd c0
              (series_lt (map battery_level high_risk)
                         (inject_Z (battery_threshold cfg)))
              "Low Battery; " in
  let c2 := loc_iadd c1 (series_ge (map fault_reports high_risk) 3)
              "Multiple Faults; " in
  let c3 := loc_iadd c2 (series_lt (map uptime_percentage high_risk) 85)
              "Low Uptime; " in
  loc_iadd c3
    (series_gt (dt_days now (map last_service high_risk)) (service_days cfg))
    "Service Due; ".

(** The table [high_risk] after the block that adds the reasons;
    [now_filter] and [now_tag] are the two readings of the clock. *)
Definition high_risk (cfg : ThresholdConfig) (now_filter now_tag : Z)
  (filtered_scooters : list scooter) : list (scooter * string) :=
  let rows := high_risk_rows cfg now_filter filtered_scooters in
  if (0 <? List.length rows)%nat
  then combine rows (risk_reason_column cfg now_tag rows)
  else [].

(** The evaluator at one explicit timestamp. *)
Definition evaluateRisk (units : list scooter) (cfg : ThresholdConfig) (now : Z)
  : list (scooter * string) :=
  high_risk cfg now now units.

(** Reason tags and the text the script appends for each. *)
Inductive ReasonTag := LowBattery | MultipleFaults | LowUptime | ServiceOverdue.

Definition all_tags : list ReasonTag :=
  [LowBattery; MultipleFaults; LowUptime; ServiceOverdue].

Definition tag_text (t : ReasonTag) : string :=
  match t with
  | LowBattery => "Low Battery; "
  | MultipleFaults => "Multiple Faults; "
  | LowUptime => "Low Uptime; "
  | ServiceOverdue => "Service Due; "
  end.

(** [sub in s] *)
Fixpoint str_in (sub s : string) : bool :=
  prefix sub s ||
  match s with
  | EmptyString => false
  | String _ s' => str_in sub s'
  end.

Definition has_tag (t : ReasonTag) (risk_reason : string) : bool :=
  str_in (tag_text t) risk_reason.

(** The number of flagged units whose reason text carries tag [t]. *)
Definition count_tag (t : ReasonTag) (flags : list (scooter * string)) : nat :=
  List.length (filter (fun row => has_tag t (snd row)) flags).

(** The trigger conditions in the words of the specification. *)
Definition whole_days (now last : Z) : Z := ((now - last) / us_per_day)%Z.

Definition satisfies (t : ReasonTag) (cfg : ThresholdConfig) (now : Z)
  (u : scooter) : Prop :=
  match t with
  | LowBattery => (battery_level u < inject_Z (battery_threshold cfg))%Q
  | MultipleFaults => (fault_reports u >= 3)%Z
  | LowUptime => (uptime_percentage u < 85)%Q
  | ServiceOverdue => (whole_days now (last_service u) > service_days cfg)%Z
  end.

Definition triggered (t : ReasonTag) (cfg : ThresholdConfig) (now : Z)
  (u : scooter) : bool :=
  match t with
  | LowBattery => Qlt_bool (battery_level u) (inject_Z (battery_threshold cfg))
  | MultipleFaults => (3 <=? fault_reports u)%Z
  | LowUptime => Qlt_bool (uptime_percentage u) 85
  | ServiceOverdue => (service_days cfg <? whole_days now (last_service u))%Z
  end.

Definition any_triggered (cfg : ThresholdConfig) (now : Z) (u : scooter) : bool :=
  existsb (fun t => triggered t cfg now u) all_tags.

(** The reason text of one row, condition by condition. *)
Definition row_reason (cfg : ThresholdConfig) (now : Z) (u : scooter) : string :=
  fold_left
    (fun acc t => if triggered t cfg now u then acc ++ tag_text t else acc)
    all_tags "".

(** ** Aggregator: the key-metrics row *)

(** [df['status'] == s] *)
Definition series_eq_status (col : list Status) (s : Status) : list bool :=
  map (fun x => Status_eqb x s) col.

Definition total_fleet (filtered_scooters : list scooter) : nat :=
  List.length filtered_scooters.

Definition count_status (s : Status) (filtered_scooters : list scooter) : nat :=
  List.length
    (boolean_index filtered_scooters
       (series_eq_status (map status filtered_scooters) s)).

Definition active_scooters := count_status OnTrip.
Definition available_scooters := count_status Available.
Definition maintenance_scooters := count_status Maintenance.

Definition Q_of_nat (n : nat) : Q := inject_Z (Z.of_nat n).

(** [(active_scooters / total_fleet) * 100 if total_fleet > 0 else 0] *)
Definition utilization_rate (filtered_scooters : list scooter) : pyfloat :=
  if (0 <? total_fleet filtered_scooters)%nat
  then Fin (Q_of_nat (active_scooters filtered_scooters)
            / Q_of_nat (total_fleet filtered_scooters) * 100)
  else Fin 0.

(** [Series.mean()] of pandas: the sum over the count, and [NaN] for a
    series with no element.  The quotient is the exact one; the float
    the code computes is its rounding, so only what rounding preserves
    (being [NaN] or a number) is stated of a mean. *)
Definition series_mean (s : list Q) : pyfloat :=
  if (0 <? List.length s)%nat
  then Fin (fold_left Qplus s 0 / Q_of_nat (List.length s))
  else NaN.

Definition avg_revenue (filtered_scooters : list scooter) : pyfloat :=
  series_mean (map revenue_today filtered_scooters).

Definition avg_uptime (filtered_scooters : list scooter) : pyfloat :=
  series_mean (map uptime_percentage filtered_scooters).

(** The "Active Alerts" card:
    [len(df[(df['battery_level'] < battery_threshold) | (df['status'] == 'Alert')])] *)
Definition alerts_count (cfg : ThresholdConfig)
  (filtered_scooters : list scooter) : nat :=
  List.length
    (boolean_index filtered_scooters
       (mask_or
          (series_lt (map battery_level filtered_scooters)
             (inject_Z (battery_threshold cfg)))
          (series_eq_status (map status filtered_scooters) Alert))).

(** The metrics of the key-metrics row and of the KPI row that summarise
    the units (the per-hub table is left out). *)
Record FleetMetrics := {
  m_total : nat;
  m_active : nat;
  m_available : nat;
  m_maintenance : nat;
  m_utilization : pyfloat;
  m_avg_revenue : pyfloat;
  m_avg_uptime : pyfloat
}.

Definition aggregate (units : list scooter) : FleetMetrics :=
  {| m_total := total_fleet units;
     m_active := active_scooters units;
     m_available := available_scooters units;
     m_maintenance := maintenance_scooters units;
     m_utilization := utilization_rate units;
     m_avg_revenue := avg_revenue units;
     m_avg_uptime := avg_uptime units |}.

(** The value is a number the dashboard can show as one: not [NaN]. *)
Definition defined_zero (x : pyfloat) : Prop :=
  match x with
  | Fin q => (q == 0)%Q
  | NaN => False
  end.

(** ** AlertComposer: the two message texts *)

(** [str(n)] for a length. *)
Definition str (n : nat) : string := NilEmpty.string_of_uint (Nat.to_uint n).

(** [sub] occurs in [s]. *)
Definition occurs_in (sub s : string) : Prop :=
  exists pre post : string, s = pre ++ sub ++ post.

(** The text of the f-string [alert_summary] around its six
    interpolated values. *)
Definition alert_text (total low_battery faults low_uptime overdue time : string)
  : string :=
  "
🚨 BOUNCE FLEET ALERT 🚨

High-Risk Scooters: " ++ total ++ "

Breakdown:
• Low Battery: " ++ low_battery ++ "
• High Fault Reports: " ++ faults ++ "
• Low Uptime: " ++ low_uptime ++ "
• Service Overdue: " ++ overdue ++ "

Actions Required:
1. Dispatch battery swap crews
2. Schedule maintenance
3. Review hub distribution

Time: " ++ time ++ "
        ".



Section Messages.

(** [t.strftime("%H:%M %d/%m/%Y")] and [format(x, ".1f")] belong to the
    Python runtime. *)
Variable strftime : Z -> string.
Variable format_1f : pyfloat -> string.

(** [len(high_risk[mask])] for each of the four masks of the breakdown. *)
Definition breakdown_count (t : ReasonTag) (cfg : ThresholdConfig) (now : Z)
  (high_risk : list (scooter * string)) : nat :=
  let units := map fst high_risk in
  List.length
    (boolean_index high_risk
       match t with
       | LowBattery =>
           series_lt (map battery_level units) (inject_Z (battery_threshold cfg))
       | MultipleFaults => series_ge (map fault_reports units) 3
       | LowUptime => series_lt (map uptime_percentage units) 85
       | ServiceOverdue =>
           series_gt (dt_days now (map last_service units)) (service_days cfg)
       end).


(** The f-string [alert_summary]; [now_count] is the clock read in the
    breakdown, [now_stamp] the one printed. *)
Definition alert_summary (cfg : ThresholdConfig) (now_count now_stamp : Z)
  (high_risk : list (scooter * string)) : string :=
  "
🚨 BOUNCE FLEET ALERT 🚨

High-Risk Scooters: " ++ str (List.length high_risk) ++ "

Breakdown:
• Low Battery: " ++ str (breakdown_count LowBattery cfg now_count high_risk) ++ "
• High Fault Reports: " ++ str (breakdown_count MultipleFaults cfg now_count high_risk) ++ "
• Low Uptime: " ++ str (breakdown_count LowUptime cfg now_count high_risk) ++ "
• Service Overdue: " ++ str (breakdown_count ServiceOverdue cfg now_count high_risk) ++ "

Actions Required:
1. Dispatch battery swap crews
2. Schedule maintenance
3. Review hub distribution

Time: " ++ strftime now_stamp ++ "
        ".

(** The f-string [all_clear_msg]. *)
Definition all_clear_msg (total : nat) (utilization : pyfloat) (active : nat)
  (now_stamp : Z) : string :=
  "
✅ BOUNCE FLEET STATUS: ALL CLEAR

Fleet Performance:
• Total Scooters: " ++ str total ++ "
• Utilization: " ++ format_1f utilization ++ "%
• Active Rides: " ++ str active ++ "
• No high-risk alerts

System Status: OPERATIONAL
Time: " ++ strftime now_stamp ++ "
                ".

(** The branch of the "Send Alerts" action on [len(high_risk) > 0]:
    the risk text, or else the all-clear text (which the script builds
    once its SMS button is reached). *)
Definition composeAlert (flags : list (scooter * string)) (metrics : FleetMetrics)
  (cfg : ThresholdConfig) (now : Z) : string :=
  if (0 <? List.length flags)%nat
  then alert_summary cfg now now flags
  else all_clear_msg (m_total metrics) (m_utilization metrics)
         (m_active metrics) now.

End Messages.

(** ** NotificationDispatcher: the two SMS loops *)

(** [st.session_state.twilio_creds] *)
Record twilio_creds := {
  account_sid : string;
  auth_token : string;
  phone_number : string;
  manager_phones : list string
}.

(** What the sidebar block leaves in [st.session_state]: no attribute
    [twilio_configured] at all (the block did not run), [True] together
    with the credentials, or [False]. *)
Inductive session_state :=
| no_attribute
| configured (creds : twilio_creds)
| not_configured.

(** The truth value of a string: [if phone:] *)
Definition truthy (phone : string) : bool :=
  match phone with
  | EmptyString => false
  | String _ _ => true
  end.

(** A Python string is a sequence of characters; here it is the
    sequence of the bytes of its UTF-8 encoding, in which a character is
    one leading byte followed by its continuation bytes (10xxxxxx). *)
Definition is_continuation (c : ascii) : bool :=
  ((128 <=? nat_of_ascii c) && (nat_of_ascii c <? 192))%nat.

(** [len(s)]: the number of characters. *)
Fixpoint char_count (s : string) : nat :=
  match s with
  | EmptyString => 0
  | String c rest =>
      ((if is_continuation c then 0 else 1) + char_count rest)%nat
  end.

Fixpoint drop_continuation (s : string) : string :=
  match s with
  | String c rest => if is_continuation c then drop_continuation rest else s
  | EmptyString => EmptyString
  end.

(** [s[n:]] for [n >= 0]: the string without its first [n] characters. *)
Fixpoint drop_chars (n : nat) (s : string) : string :=
  match n with
  | O => s
  | S n' =>
      match s with
      | EmptyString => EmptyString
      | String _ rest => drop_chars n' (drop_continuation rest)
      end
  end.

(** [phone[-4:]]: the last four characters, or the whole string when it
    has fewer. *)
Definition last4 (phone : string) : string :=
  drop_chars (char_count phone - 4) phone.

(** Calls of [st.sidebar.success], [.warning], [.error] and [.info]. *)
Inductive sidebar_call :=
| sb_success (text : string)
| sb_warning (text : string)
| sb_error (text : string)
| sb_info (text : string).

Section Dispatch.

(** The SMS provider: [Client(sid, token)] either builds a client or
    raises ([Some e], with [e] the text of the exception);
    [client.messages.create(body, from_, to)] acts on the provider's
    state and either returns a message or raises. *)
Variable world : Type.
Variable Client : string -> string -> option string.
Variable messages_create : string -> string -> string -> world -> world * option string.

(** The variables of the loop, the sidebar calls made so far and the
    recipients [messages.create] was called with so far. *)
Record loop_state := {
  ls_world : world;
  sent_count : nat;
  failed_count : nat;
  ls_sidebar : list sidebar_call;
  ls_attempts : list string
}.

Definition loop_init (w : world) : loop_state :=
  {| ls_world := w; sent_count := 0; failed_count := 0;
     ls_sidebar := []; ls_attempts := [] |}.

(** One iteration of [for phone in creds['manager_phones']] of the
    risk alert, with its own [try]/[except]. *)
Definition send_one (creds : twilio_creds) (body : string)
  (st : loop_state) (phone : string) : loop_state :=
  if truthy phone then
    match messages_create body (phone_number creds) phone (ls_world st) with
    | (w', None) =>
        {| ls_world := w';
           sent_count := sent_count st + 1;
           failed_count := failed_count st;
           ls_sidebar :=
             (ls_sidebar st ++ [sb_success ("✅ SMS sent to " ++ last4 phone)])%list;
           ls_attempts := (ls_attempts st ++ [phone])%list |}
    | (w', Some e) =>
        {| ls_world := w';
           sent_count := sent_count st;
           failed_count := failed_count st + 1;
           ls_sidebar :=
             (ls_sidebar st
              ++ [sb_error ("❌ Failed to send to " ++ last4 phone ++ ": " ++ e)])%list;
           ls_attempts := (ls_attempts st ++ [phone])%list |}
    end
  else st.

Definition sms_loop (creds : twilio_creds) (body : string)
  (phones : list string) (st : loop_state) : loop_state :=
  fold_left (send_one creds body) phones st.

(** What a dispatch leaves behind: the provider's state, the recipients
    attempted, the sidebar calls, and the two counters when the code
    that binds them ran. *)
Record outcome := {
  world_after : world;
  attempts : list string;
  sidebar : list sidebar_call;
  counters : option (nat * nat)
}.

(** The summary after the loop. *)
Definition summary (sent failed : nat) : list sidebar_call :=
  ((if (0 <? sent)%nat
    then [sb_success ("🚨 Alert sent to " ++ str sent ++ " manager(s)!")]
    else [])
   ++
   (if (0 <? failed)%nat
    then [sb_warning ("⚠️ " ++ str failed ++ " message(s) failed to send")]
    else []))%list.

(** The body of the button "Send SMS Alerts": the outer [try]. *)
Definition send_sms_alerts (creds : twilio_creds) (alert_text : string)
  (w : world) : outcome :=
  match Client (account_sid creds) (auth_token creds) with
  | Some e =>
      {| world_after := w;
         attempts := [];
         sidebar :=
           [sb_error ("❌ Twilio Error: " ++ e);
            sb_info "💡 Check your Twilio credentials and phone numbers"];
         counters := None |}
  | None =>
      let st := sms_loop creds alert_text (manager_phones creds) (loop_init w) in
      {| world_after := ls_world st;
         attempts := ls_attempts st;
         sidebar :=
           (ls_sidebar st ++ summary (sent_count st) (failed_count st))%list;
         counters := Some (sent_count st, failed_count st) |}
  end.

(** [TWILIO_AVAILABLE and hasattr(st.session_state, 'twilio_configured')
    and st.session_state.twilio_configured] *)
Definition channel_ready (TWILIO_AVAILABLE : bool) (ss : session_state)
  : option twilio_creds :=
  if TWILIO_AVAILABLE then
    match ss with
    | configured creds => Some creds
    | _ => None
    end
  else None.

(** Dispatch of the risk alert once its SMS button is clicked: the
    [if]/[elif]/[else] on the channel. *)
Definition dispatch_alert (TWILIO_AVAILABLE : bool) (ss : session_state)
  (alert_text : string) (w : world) : outcome :=
  match channel_ready TWILIO_AVAILABLE ss with
  | Some creds => send_sms_alerts creds alert_text w
  | None =>
      {| world_after := w;
         attempts := [];
         sidebar :=
           if TWILIO_AVAILABLE
           then [sb_warning "⚠️ Configure Twilio credentials above to send SMS alerts"]
           else [sb_info "📧 Alert summary generated! Install Twilio package for SMS functionality."];
         counters := None |}
  end.

(** The [for] loop of the all-clear message: no [try] of its own, so an
    exception of [messages.create] leaves the loop. *)
Fixpoint all_clear_loop (creds : twilio_creds) (body : string)
  (phones : list string) (w : world) (called : list string)
  : world * list string * option string :=
  match phones with
  | [] => (w, called, None)
  | phone :: rest =>
      if truthy phone then
        match messages_create body (phone_number creds) phone w with
        | (w', None) => all_clear_loop creds body rest w' (called ++ [phone])%list
        | (w', Some e) => (w', (called ++ [phone])%list, Some e)
        end
      else all_clear_loop creds body rest w called
  end.

(** The body of the button "Send All-Clear SMS". *)
Definition send_all_clear_sms (creds : twilio_creds) (all_clear_text : string)
  (w : world) : outcome :=
  match Client (account_sid creds) (auth_token creds) with
  | Some e =>
      {| world_after := w; attempts := [];
         sidebar := [sb_error ("❌ Error: " ++ e)]; counters := None |}
  | None =>
      match all_clear_loop creds all_clear_text (manager_phones creds) w [] with
      | (w', called, None) =>
          {| world_after := w'; attempts := called;
             sidebar := [sb_success "✅ All-clear notification sent!"];
             counters := None |}
      | (w', called, Some e) =>
          {| world_after := w'; attempts := called;
             sidebar := [sb_error ("❌ Error: " ++ e)]; counters := None |}
      end
  end.

(** Dispatch of the all-clear message once its SMS button is clicked;
    the button exists only when the channel is ready. *)
Definition dispatch_all_clear (TWILIO_AVAILABLE : bool) (ss : session_state)
  (all_clear_text : string) (w : world) : outcome :=
  match channel_ready TWILIO_AVAILABLE ss with
  | Some creds => send_all_clear_sms creds all_clear_text w
  | None =>
      {| world_after := w; attempts := []; sidebar := []; counters := None |}
  end.

(** The results of the successive calls of [messages.create] for a list
    of recipients. *)
Fixpoint transport_results (body from_ : string) (tos : list string) (w : world)
  : list (option string) :=
  match tos with
  | [] => []
  | to :: rest =>
      let r := messages_create body from_ to w in
      snd r :: transport_results body from_ rest (fst r)
  end.

(** The sidebar line of one attempt. *)
Definition outcome_line (phone : string) (result : option string) : sidebar_call :=
  match result with
  | None => sb_success ("✅ SMS sent to " ++ last4 phone)
  | Some e => sb_error ("❌ Failed to send to " ++ last4 phone ++ ": " ++ e)
  end.

Definition is_sent (r : option string) : bool :=
  match r with None => true | Some _ => false end.

(** The provider's state after the successive calls for [tos]. *)
Fixpoint transport_final (body from_ : string) (tos : list string) (w : world)
  : world :=
  match tos with
  | [] => w
  | to :: rest =>
      transport_final body from_ rest (fst (messages_create body from_ to w))
  end.

Definition count_sent (rs : list (option string)) : nat :=
  List.length (filter is_sent rs).

Definition count_failed (rs : list (option string)) : nat :=
  List.length (filter (fun r => negb (is_sent r)) rs).

Definition outcome_lines (tos : list string) (rs : list (option string))
  : list sidebar_call :=
  map (fun p => outcome_line (fst p) (snd p)) (combine tos rs).

(** For the results [rs] of successive calls: how many calls a loop
    makes that stops at the first exception, and that exception. *)
Fixpoint calls_until_error (rs : list (option string)) : nat :=
  match rs with
  | [] => 0
  | None :: rest => S (calls_until_error rest)
  | Some _ :: _ => 1
  end.

Fixpoint first_error (rs : list (option string)) : option string :=
  match rs with
  | [] => None
  | None :: rest => first_error rest
  | Some e :: _ => Some e
  end.

End Dispatch.

Arguments ls_world {world} _.
Arguments sent_count {world} _.
Arguments failed_count {world} _.
Arguments ls_sidebar {world} _.
Arguments ls_attempts {world} _.
Arguments Build_loop_state {world} _ _ _ _ _.
Arguments loop_init {world} _.
Arguments send_one {world} _ _ _ _ _.
Arguments sms_loop {world} _ _ _ _ _.
Arguments world_after {world} _.
Arguments attempts {world} _.
Arguments sidebar {world} _.
Arguments counters {world} _.
Arguments Build_outcome {world} _ _ _ _.
Arguments send_sms_alerts {world} _ _ _ _ _.
Arguments dispatch_alert {world} _ _ _ _ _ _.
Arguments all_clear_loop {world} _ _ _ _ _ _.
Arguments send_all_clear_sms {world} _ _ _ _ _.
Arguments dispatch_all_clear {world} _ _ _ _ _ _.
Arguments transport_results {world} _ _ _ _ _.
Arguments transport_final {world} _ _ _ _ _.

(** ** The rest of the script: data generation, hub filter, display *)

(** [min(a, b)] and [max(a, b)] of Python on two numbers: the first
    argument unless the second is strictly smaller (larger). *)
Definition py_min (a b : Q) : Q := if Qlt_bool b a then b else a.
Definition py_max (a b : Q) : Q := if Qlt_bool a b then b else a.

(** One entry of [hubs]. *)
Record Hub := { hub_name : string; hub_lat : Q; hub_lon : Q; capacity : Z }.

(** The random draws made for one scooter in [generate_sample_data]:
    [random.choice(hubs)], [np.random.choice] of the status, the normal
    samples, [randint] and [uniform] values, in the order of the code. *)
Record scooter_draws := {
  d_hub : Hub;
  d_status : Status;
  d_lat_offset : Q;
  d_lon_offset : Q;
  d_battery : Q;
  d_service_days : Z;
  d_trips : Z;
  d_revenue : Q;
  d_faults : Z;
  d_uptime : Q
}.

(** The dictionary [scooter] of [generate_sample_data]; [now] is the
    clock read for [last_service]. *)
Definition generate_scooter (id : string) (now : Z) (d : scooter_draws) : scooter :=
  {| scooter_id := id;
     hub := hub_name (d_hub d);
     status := d_status d;
     battery_level := py_max 10 (py_min 100 (d_battery d));
     lat := hub_lat (d_hub d) + d_lat_offset d;
     lon := hub_lon (d_hub d) + d_lon_offset d;
     last_service := (now - d_service_days d * us_per_day)%Z;
     total_trips := d_trips d;
     revenue_today := d_revenue d;
     fault_reports := d_faults d;
     uptime_percentage := d_uptime d |}.

(** The ranges numpy documents for the draws of the code:
    [randint(1, 90)], [randint(0, 5)], [uniform(0, 150)] and
    [uniform(85, 99)] (upper bounds excluded). *)
Definition draws_in_range (d : scooter_draws) : Prop :=
  (1 <= d_service_days d < 90)%Z
  /\ (0 <= d_faults d < 5)%Z
  /\ (0 <= d_revenue d)%Q /\ (d_revenue d < 150)%Q
  /\ (85 <= d_uptime d)%Q /\ (d_uptime d < 99)%Q.

Fixpoint zeros (n : nat) : string :=
  match n with
  | O => EmptyString
  | S n' => String "0" (zeros n')
  end.

(** [s.zfill(width)]: zeros on the left, after a leading sign. *)
Definition zfill (width : nat) (s : string) : string :=
  let pad := zeros (width - String.length s) in
  match s with
  | String c rest =>
      if (Ascii.eqb c "+" || Ascii.eqb c "-")%bool
      then String c (pad ++ rest)
      else pad ++ s
  | EmptyString => pad
  end.

(** [[f"BNC{str(i).zfill(4)}" for i in range(1, fleet_size + 1)]] *)
Definition scooter_ids (fleet_size : nat) : list string :=
  map (fun i => "BNC" ++ zfill 4 (str i)) (seq 1 fleet_size).

(** The loop that builds [scooters], one dictionary per id; the draws of
    each iteration are given in a list of the same length. *)
Definition generate_scooters (fleet_size : nat) (now : Z)
  (draws : list scooter_draws) : list scooter :=
  map (fun p => generate_scooter (fst p) now (snd p))
      (combine (scooter_ids fleet_size) draws).

(** The number written in an id, read back from its digits. *)
Definition id_number (id : string) : option nat :=
  match NilEmpty.uint_of_string (substring 3 (String.length id - 3) id) with
  | Some u => Some (Nat.of_uint u)
  | None => None
  end.

(** The id of number [i] has seven characters and gives [i] back. *)
Definition id_round_trip (i : nat) : bool :=
  match id_number ("BNC" ++ zfill 4 (str i)) with
  | Some j => Nat.eqb j i
  | None => false
  end
  && Nat.eqb (String.length ("BNC" ++ zfill 4 (str i))) 7.

(** [col.isin(values)] *)
Definition isin (col values : list string) : list bool :=
  map (fun x => existsb (String.eqb x) values) col.

(** [col.unique()]: the distinct values in order of first appearance. *)
Fixpoint unique_from (seen col : list string) : list string :=
  match col with
  | [] => []
  | x :: rest =>
      if existsb (String.eqb x) seen
      then unique_from seen rest
      else x :: unique_from (x :: seen) rest
  end.

Definition unique (col : list string) : list string := unique_from [] col.

(** The default of the multiselect: [df_scooters['hub'].unique()[:3]] *)
Definition default_hubs (df_scooters : list scooter) : list string :=
  firstn 3 (unique (map hub df_scooters)).

(** [df_scooters[df_scooters['hub'].isin(selected_hubs)]] *)
Definition filtered_scooters (df_scooters : list scooter)
  (selected_hubs : list string) : list scooter :=
  boolean_index df_scooters (isin (map hub df_scooters) selected_hubs).

(** The order of the group keys: strings in increasing order. *)
Definition in_order (a b : string) : Prop := String.leb a b = true.

Fixpoint insert_sorted (x : string) (l : list string) : list string :=
  match l with
  | [] => [x]
  | y :: rest =>
      if String.leb x y then x :: l else y :: insert_sorted x rest
  end.

Fixpoint sort_strings (l : list string) : list string :=
  match l with
  | [] => []
  | x :: rest => insert_sorted x (sort_strings rest)
  end.

(** [col == s] on a column of strings *)
Definition series_eq_string (col : list string) (s : string) : list bool :=
  map (fun x => String.eqb x s) col.

(** A row of the hub table: the group key and the three aggregates. *)
Record hub_row := {
  hr_hub : string;
  hr_scooters : nat;
  hr_uptime : pyfloat;
  hr_revenue : Q
}.

(** [filtered_scooters.groupby('hub').agg({'scooter_id': 'count',
    'uptime_percentage': 'mean', 'revenue_today': 'sum'})]: one row per
    hub present, in increasing order of the names.  This is the frame
    the script then rounds to one decimal; the rounding is not part of
    the definition. *)
Definition hub_agg (filtered : list scooter) : list hub_row :=
  map (fun h =>
         let group :=
           boolean_index filtered (series_eq_string (map hub filtered) h) in
         {| hr_hub := h;
            hr_scooters := List.length (map scooter_id group);
            hr_uptime := series_mean (map uptime_percentage group);
            hr_revenue := fold_left Qplus (map revenue_today group) 0 |})
      (sort_strings (unique (map hub filtered))).

(** A row of the table shown: the four columns kept. *)
Record display_row := {
  col_scooter_id : string;
  col_hub : string;
  col_battery : Q;
  col_risk_factors : string
}.

(** [high_risk[['scooter_id', 'hub', 'battery_level', 'risk_reason']].head(10)] *)
Definition high_risk_display (high_risk : list (scooter * string))
  : list display_row :=
  firstn 10
    (map (fun row =>
            {| col_scooter_id := scooter_id (fst row);
               col_hub := hub (fst row);
               col_battery := battery_level (fst row);
               col_risk_factors := snd row |})
         high_risk).

(** ** The rest of the script: the Twilio settings of the sidebar *)

(** The loop over the three manager inputs: [if phone: manager_phones.append(phone)] *)
Definition collect_manager_phones (inputs : list string) : list string :=
  fold_left
    (fun phones phone => if truthy phone then (phones ++ [phone])%list else phones)
    inputs [].

(** The expander "Twilio Settings": what it stores in the session. *)
Definition twilio_settings (sid token twilio_phone m1 m2 m3 : string)
  : session_state :=
  let phones := collect_manager_phones [m1; m2; m3] in
  if (truthy sid && truthy token)%bool
  then configured {| account_sid := sid; auth_token := token;
                     phone_number := twilio_phone; manager_phones := phones |}
  else not_configured.

(** The block runs only under [if TWILIO_AVAILABLE:]. *)
Definition sidebar_session (TWILIO_AVAILABLE : bool)
  (sid token twilio_phone m1 m2 m3 : string) : session_state :=
  if TWILIO_AVAILABLE
  then twilio_settings sid token twilio_phone m1 m2 m3
  else no_attribute.

(** ** The rest of the script: the action "Send Alerts" as a whole *)

Section SendAlerts.

Variable world : Type.
Variable Client : string -> string -> option string.
Variable messages_create : string -> string -> string -> world -> world * option string.
Variable strftime : Z -> string.
Variable format_1f : pyfloat -> string.

Definition nothing_sent (w : world) : outcome world :=
  {| world_after := w; attempts := []; sidebar := []; counters := None |}.

(** The handler of the button "Send Alerts": the preview shown in the
    text area (risk branch only) and what the SMS part leaves behind.
    [sms_clicked] is the value of the inner button of the branch taken. *)
Definition send_alerts (TWILIO_AVAILABLE : bool) (ss : session_state)
  (sms_clicked : bool) (cfg : ThresholdConfig) (now_count now_stamp : Z)
  (high_risk : list (scooter * string)) (filtered : list scooter) (w : world)
  : option string * outcome world :=
  if (0 <? List.length high_risk)%nat then
    let text := alert_summary strftime cfg now_count now_stamp high_risk in
    (Some text,
     match channel_ready TWILIO_AVAILABLE ss with
     | Some creds =>
         if sms_clicked
         then send_sms_alerts Client messages_create creds text w
         else nothing_sent w
     | None =>
         {| world_after := w;
            attempts := [];
            sidebar :=
              if TWILIO_AVAILABLE
              then [sb_warning "⚠️ Configure Twilio credentials above to send SMS alerts"]
              else [sb_info "📧 Alert summary generated! Install Twilio package for SMS functionality."];
            counters := None |}
     end)
  else
    let sent :=
      match channel_ready TWILIO_AVAILABLE ss with
      | Some creds =>
          if sms_clicked
          then send_all_clear_sms Client messages_create creds
                 (all_clear_msg strftime format_1f (total_fleet filtered)
                    (utilization_rate filtered) (active_scooters filtered)
                    now_stamp) w
          else nothing_sent w
      | None => nothing_sent w
      end in
    (None,
     {| world_after := world_after sent;
        attempts := attempts sent;
        sidebar :=
          sb_info "✅ No alerts to send - all systems operational!" :: sidebar sent;
        counters := counters sent |}).

(** A provider that also records the arguments of every call of
    [messages.create], in order. *)
Definition recording_create (body from_ to : string)
  (wl : world * list (string * string * string))
  : (world * list (string * string * string)) * option string :=
  let r := messages_create body from_ to (fst wl) in
  ((fst r, (snd wl ++ [(body, from_, to)])%list), snd r).

(** The calls recorded by a dispatch that starts with an empty record. *)
Definition calls_of (r : outcome (world * list (string * string * string)))
  : list (string * string * string) :=
  snd (world_after r).

End SendAlerts.

Arguments nothing_sent {world} _.
Arguments send_alerts {world} _ _ _ _ _ _ _ _ _ _ _ _ _.
Arguments recording_create {world} _ _ _ _ _.
Arguments calls_of {world} _.

(** ** The rest of the script: the action "Sync Fleet Data" *)

(** The status text of iteration [i] of the progress loop. *)
Definition sync_status (i : nat) : string :=
  if (i <? 30)%nat then "Connecting to fleet API..."
  else if (i <? 60)%nat then "Fetching scooter locations..."
  else if (i <? 80)%nat then "Updating battery status..."
  else "Finalizing sync...".

(** [for i in range(100)]: the value given to [progress_bar.progress]
    and the status text, iteration by iteration. *)
Definition sync_progress : list (nat * string) :=
  map (fun i => ((i + 1)%nat, sync_status i)) (seq 0 100).

(** ** Sample data *)

(** A unit with an integer battery level, no fault report and full
    uptime, last serviced at time 0: at time [days * us_per_day] its
    last service is [days] whole days old. *)
Definition probe_unit (battery : Z) : scooter :=
  {| scooter_id := "BNC0001"; hub := "MG Road Hub"; status := Available;
     battery_level := inject_Z battery; lat := 0; lon := 0;
     last_service := 0; total_trips := 0; revenue_today := 0;
     fault_reports := 0; uptime_percentage := 100 |}.

(** A configuration below the range of the service slider. *)
Definition negative_days_config : ThresholdConfig :=
  {| battery_threshold := 20; service_days := -1 |}.

Definition default_config : ThresholdConfig :=
  {| battery_threshold := value battery_threshold_slider;
     service_days := value service_days_slider |}.

Definition sample_unit (id : string) (battery : Q) (faults : Z) (uptime : Q)
  (last : Z) : scooter :=
  {| scooter_id := id; hub := "MG Road Hub"; status := Available;
     battery_level := battery; lat := 0; lon := 0;
     last_service := last; total_trips := 0; revenue_today := 0;
     fault_reports := faults; uptime_percentage := uptime |}.

(** Day 100, and three units: one with a low battery serviced 40 days
    before, one with three reasons serviced 70 days before, one sound. *)
Definition sample_now : Z := 100 * us_per_day.

Definition unit_low_battery : scooter :=
  sample_unit "BNC0001" 15 1 92 (60 * us_per_day).

Definition unit_three_reasons : scooter :=
  sample_unit "BNC0002" 50 4 80 (30 * us_per_day).

Definition unit_sound : scooter :=
  sample_unit "BNC0003" 90 0 97 (95 * us_per_day).

Definition sample_fleet : list scooter :=
  [unit_low_battery; unit_three_reasons; unit_sound].

(** Stand-ins for the runtime's formatters. *)
Definition sample_strftime (t : Z) : string := "12:00 03/11/2026".
Definition sample_format_1f (x : pyfloat) : string := "0.0".

(** A provider that counts its calls and refuses the number "+1000". *)
Definition sample_Client (sid token : string) : option string := None.

Definition flaky_create (body from_ to : string) (w : nat) : nat * option string :=
  if String.eqb to "+1000" then (S w, Some "unreachable") else (S w, None).

Definition sample_creds (phones : list string) : twilio_creds :=
  {| account_sid := "AC0"; auth_token := "token";
     phone_number := "+15550000"; manager_phones := phones |}.

(** Draws for one scooter: a normal sample of 5 for the battery, a last
    service 70 days back, 4 fault reports, an uptime of 90. *)
Definition sample_draws : scooter_draws :=
  {| d_hub := {| hub_name := "MG Road Hub"; hub_lat := 12; hub_lon := 77;
                 capacity := 35 |};
     d_status := Available; d_lat_offset := 0; d_lon_offset := 0;
     d_battery := 5; d_service_days := 70; d_trips := 100;
     d_revenue := 50; d_faults := 4; d_uptime := 90 |}.

(** Thresholds looser than the defaults. *)
Definition loose_config : ThresholdConfig :=
  {| battery_threshold := 30; service_days := 45 |}.

(** ** Basic facts on columns *)

Lemma Qlt_bool_iff (x y : Q) : Qlt_bool x y = true <-> (x < y)%Q.
Proof. unfold Qlt_bool, Qlt. apply Z.ltb_lt. Qed.

Lemma triggered_iff (t : ReasonTag) cfg now u :
  triggered t cfg now u = true <-> satisfies t cfg now u.
Proof.
  destruct t; simpl.
  - apply Qlt_bool_iff.
  - rewrite Z.leb_le. lia.
  - apply Qlt_bool_iff.
  - rewrite Z.ltb_lt. lia.
Qed.

Lemma boolean_index_map {A : Type} (p : A -> bool) (rows : list A) :
  boolean_index rows (map p rows) = filter p rows.
Proof.
  induction rows as [|r rows IH]; simpl; [reflexivity|].
  rewrite IH. reflexivity.
Qed.

Lemma mask_or_map {A : Type} (p q : A -> bool) (rows : list A) :
  mask_or (map p rows) (map q rows) = map (fun r => p r || q r) rows.
Proof.
  unfold mask_or.
  induction rows as [|r rows IH]; simpl; [reflexivity|].
  now rewrite IH.
Qed.

Lemma loc_iadd_map {A : Type} (f : A -> string) (p : A -> bool) (s : string)
  (rows : list A) :
  loc_iadd (map f rows) (map p rows) s
  = map (fun r => if p r then f r ++ s else f r) rows.
Proof.
  induction rows as [|r rows IH]; simpl; [reflexivity|].
  now rewrite IH.
Qed.

Lemma high_risk_mask_rows cfg now df :
  high_risk_mask cfg now df = map (any_triggered cfg now) df.
Proof.
  unfold high_risk_mask, series_lt, series_ge, series_gt, dt_days.
  rewrite !map_map.
  rewrite (mask_or_map (fun u => Qlt_bool (battery_level u) _)).
  rewrite (mask_or_map (fun u => _ || _)).
  rewrite (mask_or_map (fun u => _ || _ || _)).
  apply map_ext. intro u.
  unfold any_triggered, all_tags, triggered, whole_days. simpl.
  now rewrite orb_false_r, !orb_assoc.
Qed.

Lemma high_risk_rows_filter cfg now df :
  high_risk_rows cfg now df = filter (any_triggered cfg now) df.
Proof.
  unfold high_risk_rows. rewrite high_risk_mask_rows. apply boolean_index_map.
Qed.

Lemma risk_reason_column_rows cfg now rows :
  risk_reason_column cfg now rows = map (row_reason cfg now) rows.
Proof.
  unfold risk_reason_column, series_lt, series_ge, series_gt, dt_days.
  rewrite !map_map.
  rewrite (loc_iadd_map (fun _ => "")
             (fun u => Qlt_bool (battery_level u) _)).
  rewrite (loc_iadd_map _ (fun u => (3 <=? fault_reports u)%Z)).
  rewrite (loc_iadd_map _ (fun u => Qlt_bool (uptime_percentage u) 85)).
  rewrite (loc_iadd_map _
             (fun u => (service_days cfg <? (now - last_service u) / us_per_day)%Z)).
  apply map_ext. intro u. reflexivity.
Qed.

Lemma combine_map_self {A B : Type} (f : A -> B) (l : list A) :
  combine l (map f l) = map (fun x => (x, f x)) l.
Proof.
  induction l as [|x l IH]; simpl; [reflexivity|]. now rewrite IH.
Qed.

Lemma high_risk_rowwise cfg now_filter now_tag df :
  high_risk cfg now_filter now_tag df
  = map (fun u => (u, row_reason cfg now_tag u))
        (filter (any_triggered cfg now_filter) df).
Proof.
  unfold high_risk. rewrite high_risk_rows_filter.
  destruct (filter (any_triggered cfg now_filter) df) as [|u rows] eqn:E.
  - reflexivity.
  - cbn [List.length Nat.ltb Nat.leb].
    rewrite risk_reason_column_rows. apply combine_map_self.
Qed.

Lemma evaluateRisk_rowwise units cfg now :
  evaluateRisk units cfg now
  = map (fun u => (u, row_reason cfg now u))
        (filter (any_triggered cfg now) units).
Proof. apply high_risk_rowwise. Qed.

Lemma has_tag_row_reason (t : ReasonTag) cfg now u :
  has_tag t (row_reason cfg now u) = triggered t cfg now u.
Proof.
  unfold row_reason, all_tags. cbn [fold_left].
  destruct (triggered LowBattery cfg now u) eqn:E1,
           (triggered MultipleFaults cfg now u) eqn:E2,
           (triggered LowUptime cfg now u) eqn:E3,
           (triggered ServiceOverdue cfg now u) eqn:E4;
    destruct t; rewrite ?E1, ?E2, ?E3, ?E4; vm_compute; reflexivity.
Qed.

Lemma any_triggered_iff cfg now u :
  any_triggered cfg now u = true <-> exists t, satisfies t cfg now u.
Proof.
  unfold any_triggered. rewrite existsb_exists. split.
  - intros [t [_ Ht]]. exists t. now apply triggered_iff.
  - intros [t Ht]. exists t. split.
    + destruct t; simpl; auto.
    + now apply triggered_iff.
Qed.

Lemma evaluateRisk_single u cfg now :
  evaluateRisk [u] cfg now
  = if any_triggered cfg now u then [(u, row_reason cfg now u)] else [].
Proof.
  rewrite evaluateRisk_rowwise. simpl.
  now destruct (any_triggered cfg now u).
Qed.

Lemma evaluateRisk_app a b cfg now :
  evaluateRisk (a ++ b)%list cfg now
  = (evaluateRisk a cfg now ++ evaluateRisk b cfg now)%list.
Proof.
  rewrite !evaluateRisk_rowwise, filter_app, map_app. reflexivity.
Qed.

(** ** RiskEvaluator: the claims *)

(** C1. [evaluateRisk] returns, in input order, exactly the units that
    satisfy at least one of the four trigger conditions (battery below
    the threshold, three or more fault reports, uptime below 85, more
    whole days since the last service than [service_days]); the reason
    text of each returned unit names a condition if and only if the
    unit satisfies it, so every matching reason is reported; a unit
    that satisfies none is absent. *)
Theorem evaluateRisk_flags_exactly (units : list scooter)
  (cfg : ThresholdConfig) (now : Z) :
  map fst (evaluateRisk units cfg now) = filter (any_triggered cfg now) units
  /\ (forall u, any_triggered cfg now u = true
                <-> exists t, satisfies t cfg now u)
  /\ (forall u r, In (u, r) (evaluateRisk units cfg now) ->
        In u units /\ forall t, has_tag t r = true <-> satisfies t cfg now u).
Proof.
  split; [|split].
  - rewrite evaluateRisk_rowwise, map_map. simpl. apply map_id.
  - intro u. apply any_triggered_iff.
  - intros u r Hin. rewrite evaluateRisk_rowwise in Hin.
    apply in_map_iff in Hin. destruct Hin as [u' [Heq Hu']].
    inversion Heq; subst u' r. apply filter_In in Hu'. split; [tauto|].
    intro t. rewrite has_tag_row_reason. apply triggered_iff.
Qed.

(** C8. The flags of a unit depend on that unit, the thresholds and the
    timestamp only: the result for a list is the concatenation, in
    order, of the results of evaluating each unit alone, whatever the
    other units of the list are and wherever the unit stands. *)
Theorem evaluateRisk_per_unit (units : list scooter)
  (cfg : ThresholdConfig) (now : Z) :
  evaluateRisk units cfg now
  = flat_map (fun u => evaluateRisk [u] cfg now) units
  /\ (forall before after u,
        evaluateRisk (before ++ u :: after)%list cfg now
        = (evaluateRisk before cfg now
           ++ evaluateRisk [u] cfg now
           ++ evaluateRisk after cfg now)%list).
Proof.
  split.
  - induction units as [|u units IH]; [reflexivity|].
    change (u :: units) with ([u] ++ units)%list.
    rewrite evaluateRisk_app, IH. reflexivity.
  - intros before after u.
    change (u :: after) with ([u] ++ after)%list.
    now rewrite !evaluateRisk_app.
Qed.

Lemma probe_triggers battery days cfg :
  triggered LowBattery cfg (days * us_per_day) (probe_unit battery)
  = (battery <? battery_threshold cfg)%Z
  /\ triggered MultipleFaults cfg (days * us_per_day) (probe_unit battery) = false
  /\ triggered LowUptime cfg (days * us_per_day) (probe_unit battery) = false
  /\ triggered ServiceOverdue cfg (days * us_per_day) (probe_unit battery)
     = (service_days cfg <? days)%Z.
Proof.
  repeat split.
  - unfold triggered, Qlt_bool, probe_unit; simpl. now rewrite !Z.mul_1_r.
  - unfold triggered, whole_days, probe_unit; simpl.
    rewrite Z.sub_0_r, Z.div_mul by (unfold us_per_day; lia). reflexivity.
Qed.

Lemma probe_result battery days cfg :
  map snd (evaluateRisk [probe_unit battery] cfg (days * us_per_day))
  = if (battery <? battery_threshold cfg)%Z
    then if (service_days cfg <? days)%Z
         then ["Low Battery; Service Due; "] else ["Low Battery; "]
    else if (service_days cfg <? days)%Z then ["Service Due; "] else [].
Proof.
  rewrite evaluateRisk_single.
  unfold any_triggered, row_reason, all_tags. cbn [existsb fold_left].
  destruct (probe_triggers battery days cfg) as (-> & -> & -> & ->).
  destruct (battery <? battery_threshold cfg)%Z,
           (service_days cfg <? days)%Z; reflexivity.
Qed.

(** The evaluation compares against the thresholds as they are given:
    any two different configurations are told apart by some unit at
    some time. *)
Lemma thresholds_used_as_given (cfg1 cfg2 : ThresholdConfig) :
  cfg1 <> cfg2 ->
  exists u now, evaluateRisk [u] cfg1 now <> evaluateRisk [u] cfg2 now.
Proof.
  destruct cfg1 as [b1 d1], cfg2 as [b2 d2]. intro Hne.
  destruct (Z.eq_dec d1 d2) as [Hd|Hd].
  - assert (Hb : b1 <> b2) by (intro; subst; now apply Hne).
    exists (probe_unit (Z.min b1 b2)), (d1 * us_per_day)%Z.
    intro E. apply (f_equal (map snd)) in E.
    rewrite !probe_result in E. simpl in E. subst d2.
    rewrite Z.ltb_irrefl in E.
    destruct (Z.min b1 b2 <? b1)%Z eqn:E1, (Z.min b1 b2 <? b2)%Z eqn:E2;
      try discriminate; rewrite ?Z.ltb_lt, ?Z.ltb_ge in E1, E2; lia.
  - exists (probe_unit (Z.max b1 b2)), ((Z.min d1 d2 + 1) * us_per_day)%Z.
    intro E. apply (f_equal (map snd)) in E.
    rewrite !probe_result in E. simpl in E.
    replace (Z.max b1 b2 <? b1)%Z with false in E
      by (symmetry; apply Z.ltb_ge; lia).
    replace (Z.max b1 b2 <? b2)%Z with false in E
      by (symmetry; apply Z.ltb_ge; lia).
    destruct (d1 <? Z.min d1 d2 + 1)%Z eqn:E1, (d2 <? Z.min d1 d2 + 1)%Z eqn:E2;
      try discriminate; rewrite ?Z.ltb_lt, ?Z.ltb_ge in E1, E2; lia.
Qed.

Example thresholds_used_as_given_example :
  exists u now,
    evaluateRisk [u] negative_days_config now
    <> evaluateRisk [u] {| battery_threshold := 20; service_days := 30 |} now.
Proof.
  apply (thresholds_used_as_given negative_days_config
           {| battery_threshold := 20; service_days := 30 |}).
  discriminate.
Defined.

(** ** Aggregator: the claim *)

(** C3. On the empty list the aggregate has total 0 and utilization 0
    (the division is guarded), but the two means are not zero: the
    mean of an empty column is [NaN], so the revenue and uptime metrics
    are undefined values. *)
Theorem aggregate_empty_means_undefined :
  m_total (aggregate []) = 0%nat
  /\ m_active (aggregate []) = 0%nat
  /\ m_utilization (aggregate []) = Fin 0
  /\ m_avg_revenue (aggregate []) = NaN
  /\ m_avg_uptime (aggregate []) = NaN
  /\ (forall cfg, alerts_count cfg [] = 0%nat)
  /\ ~ defined_zero (m_avg_revenue (aggregate []))
  /\ ~ defined_zero (m_avg_uptime (aggregate [])).
Proof.
  repeat split; try reflexivity; simpl; tauto.
Qed.

(** ** AlertComposer: the claims *)

Lemma breakdown_count_rows t cfg now (flags : list (scooter * string)) :
  breakdown_count t cfg now flags
  = List.length (filter (fun row => triggered t cfg now (fst row)) flags).
Proof.
  unfold breakdown_count, series_lt, series_ge, series_gt, dt_days.
  rewrite !map_map.
  destruct t; rewrite boolean_index_map; reflexivity.
Qed.

Lemma breakdown_count_tags t units cfg now :
  breakdown_count t cfg now (evaluateRisk units cfg now)
  = count_tag t (evaluateRisk units cfg now).
Proof.
  rewrite breakdown_count_rows. unfold count_tag. f_equal.
  apply filter_ext_in. intros [u r] Hin. simpl.
  rewrite evaluateRisk_rowwise in Hin. apply in_map_iff in Hin.
  destruct Hin as [u' [Heq _]]. inversion Heq; subst.
  symmetry. apply has_tag_row_reason.
Qed.

Lemma append_assoc (a b c : string) : (a ++ b) ++ c = a ++ (b ++ c).
Proof.
  induction a as [|ch a IH]; simpl; [reflexivity|]. now rewrite IH.
Qed.


Ltac occurs_after pre :=
  exists pre; eexists; cbn [append]; reflexivity.

Section MessageFacts.

Variable strftime : Z -> string.
Variable format_1f : pyfloat -> string.

Lemma all_clear_differs_from_risk total utilization active now cfg nc ns flags :
  all_clear_msg strftime format_1f total utilization active now
  <> alert_summary strftime cfg nc ns flags.
Proof.
  unfold all_clear_msg, alert_summary. cbn [append]. discriminate.
Qed.

(** C5. For the empty flagged list [composeAlert] gives the all-clear
    text: it starts with the all-clear header, carries the total number
    of units, the utilization and the active rides, and differs from the
    risk text of every non-empty flagged list, whatever the metrics are
    (zero utilization included). *)
Theorem composeAlert_empty_is_all_clear (metrics : FleetMetrics)
  (cfg : ThresholdConfig) (now : Z) :
  composeAlert strftime format_1f [] metrics cfg now
  = all_clear_msg strftime format_1f (m_total metrics) (m_utilization metrics)
      (m_active metrics) now
  /\ occurs_in "✅ BOUNCE FLEET STATUS: ALL CLEAR"
       (composeAlert strftime format_1f [] metrics cfg now)
  /\ occurs_in ("• Total Scooters: " ++ str (m_total metrics))
       (composeAlert strftime format_1f [] metrics cfg now)
  /\ occurs_in ("• Utilization: " ++ format_1f (m_utilization metrics) ++ "%")
       (composeAlert strftime format_1f [] metrics cfg now)
  /\ occurs_in ("• Active Rides: " ++ str (m_active metrics))
       (composeAlert strftime format_1f [] metrics cfg now)
  /\ (forall flags metrics' cfg' now', flags <> [] ->
        composeAlert strftime format_1f [] metrics cfg now
        <> composeAlert strftime format_1f flags metrics' cfg' now').
Proof.
  split; [reflexivity|].
  unfold composeAlert. cbn [List.length Nat.ltb Nat.leb]. unfold all_clear_msg.
  repeat split.
  - occurs_after "
".
  - occurs_after "
✅ BOUNCE FLEET STATUS: ALL CLEAR

Fleet Performance:
".
  - exists ("
✅ BOUNCE FLEET STATUS: ALL CLEAR

Fleet Performance:
• Total Scooters: " ++ str (m_total metrics) ++ "
"); eexists.
    rewrite !append_assoc. cbn [append]. rewrite ?append_assoc. reflexivity.
  - exists ("
✅ BOUNCE FLEET STATUS: ALL CLEAR

Fleet Performance:
• Total Scooters: " ++ str (m_total metrics) ++ "
• Utilization: " ++ format_1f (m_utilization metrics) ++ "%
"); eexists.
    rewrite !append_assoc. cbn [append]. rewrite ?append_assoc. reflexivity.
  - intros flags metrics' cfg' now' Hne.
    destruct flags as [|row flags]; [congruence|].
    cbn [List.length Nat.ltb Nat.leb].
    apply all_clear_differs_from_risk.
Qed.






End MessageFacts.

(** ** NotificationDispatcher: facts on the loops *)

Section DispatchFacts.

Variable world : Type.
Variable Client : string -> string -> option string.
Variable messages_create : string -> string -> string -> world -> world * option string.

Lemma count_sent_failed rs :
  (count_sent rs + count_failed rs = List.length rs)%nat.
Proof.
  unfold count_sent, count_failed.
  induction rs as [|r rs IH]; simpl; [reflexivity|].
  destruct (is_sent r); simpl; lia.
Qed.

Lemma transport_results_length body from_ tos w :
  List.length (transport_results messages_create body from_ tos w)
  = List.length tos.
Proof.
  revert w. induction tos as [|to tos IH]; intro w; simpl; [reflexivity|].
  now rewrite IH.
Qed.

Lemma sms_loop_app creds body p1 p2 st :
  sms_loop messages_create creds body (p1 ++ p2)%list st
  = sms_loop messages_create creds body p2
      (sms_loop messages_create creds body p1 st).
Proof. unfold sms_loop. apply fold_left_app. Qed.

(** The loop attempts the truthy entries in order, one call each, and
    never stops early. *)
Lemma sms_loop_trace creds body phones st :
  let tos := filter truthy phones in
  let rs := transport_results messages_create body (phone_number creds) tos
              (ls_world st) in
  sms_loop messages_create creds body phones st
  = {| ls_world :=
         transport_final messages_create body (phone_number creds) tos (ls_world st);
       sent_count := sent_count st + count_sent rs;
       failed_count := failed_count st + count_failed rs;
       ls_sidebar := (ls_sidebar st ++ outcome_lines tos rs)%list;
       ls_attempts := (ls_attempts st ++ tos)%list |}.
Proof.
  revert st. induction phones as [|phone phones IH]; intro st; simpl.
  - destruct st; simpl. unfold count_sent, count_failed, outcome_lines; simpl.
    now rewrite !Nat.add_0_r, !app_nil_r.
  - unfold sms_loop in *. simpl. unfold send_one at 2.
    destruct (truthy phone) eqn:Hp; [|apply IH].
    simpl.
    destruct (messages_create body (phone_number creds) phone (ls_world st))
      as [w' [e|]] eqn:Hc; rewrite IH; simpl;
      unfold count_sent, count_failed, outcome_lines; simpl;
      rewrite <- !app_assoc; simpl; f_equal; lia.
Qed.

Lemma transport_final_recording body from_ tos (w : world)
  (log : list (string * string * string)) :
  transport_final (recording_create messages_create) body from_ tos (w, log)
  = (transport_final messages_create body from_ tos w,
     (log ++ map (fun to => (body, from_, to)) tos)%list).
Proof.
  revert w log. induction tos as [|to tos IH]; intros w log.
  - simpl. now rewrite app_nil_r.
  - cbn [transport_final map]. unfold recording_create at 2. cbn [fst snd].
    rewrite IH. now rewrite <- app_assoc.
Qed.

End DispatchFacts.

(** ** NotificationDispatcher: the claims *)

Section DispatchClaims.

Variable world : Type.
Variable Client : string -> string -> option string.
Variable messages_create : string -> string -> string -> world -> world * option string.

Lemma send_sms_alerts_trace creds body w :
  Client (account_sid creds) (auth_token creds) = None ->
  let tos := filter truthy (manager_phones creds) in
  let rs := transport_results messages_create body (phone_number creds) tos w in
  send_sms_alerts Client messages_create creds body w
  = {| world_after :=
         transport_final messages_create body (phone_number creds) tos w;
       attempts := tos;
       sidebar :=
         (outcome_lines tos rs ++ summary (count_sent rs) (count_failed rs))%list;
       counters := Some (count_sent rs, count_failed rs) |}.
Proof.
  intros HC tos rs. unfold send_sms_alerts. rewrite HC.
  rewrite sms_loop_trace. reflexivity.
Qed.

(** An exception of [messages.create] ends the all-clear loop at once. *)
Lemma all_clear_loop_stops creds body phone rest w called w' e :
  truthy phone = true ->
  messages_create body (phone_number creds) phone w = (w', Some e) ->
  all_clear_loop messages_create creds body (phone :: rest) w called
  = (w', (called ++ [phone])%list, Some e).
Proof. intros Hp Hc. simpl. now rewrite Hp, Hc. Qed.

(** C4. With a ready channel, the risk alert is attempted once for each
    non-empty entry of the recipient list, in the order of the list:
    empty entries are neither attempted nor counted, each attempt has
    its own outcome line in that order, and the counters are the numbers
    of successes and failures among the attempts.  The attempts are real
    calls of the provider: its state afterwards is the one these calls
    lead to, and a provider that records its calls has seen exactly one
    call per non-empty entry, with the alert text and the configured
    sender.  For
    [""; "+1000"; ""; "+1001"] there are exactly two attempts; for the
    empty list there is none, both counters are 0 and nothing is
    reported as an error. *)
Theorem dispatch_attempts_each_nonblank_once (creds : twilio_creds)
  (body : string) (w : world) :
  Client (account_sid creds) (auth_token creds) = None ->
  let tos := filter truthy (manager_phones creds) in
  let rs := transport_results messages_create body (phone_number creds) tos w in
  let r := dispatch_alert Client messages_create true (configured creds) body w in
  attempts r = tos
  /\ world_after r
     = transport_final messages_create body (phone_number creds) tos w
  /\ calls_of (dispatch_alert Client (recording_create messages_create) true
                 (configured creds) body (w, []))
     = map (fun to => (body, phone_number creds, to)) tos
  /\ List.length rs = List.length tos
  /\ sidebar r
     = (outcome_lines tos rs ++ summary (count_sent rs) (count_failed rs))%list
  /\ counters r = Some (count_sent rs, count_failed rs)
  /\ (count_sent rs + count_failed rs = List.length tos)%nat
  /\ (manager_phones creds = [""; "+1000"; ""; "+1001"] ->
      attempts r = ["+1000"; "+1001"])
  /\ (manager_phones creds = [] ->
      attempts r = [] /\ sidebar r = [] /\ counters r = Some (0, 0)%nat).
Proof.
  intros HC tos rs r. subst r. unfold dispatch_alert, channel_ready.
  rewrite (send_sms_alerts_trace creds body w HC). fold tos. fold rs. simpl.
  assert (Hlen : List.length rs = List.length tos)
    by apply transport_results_length.
  split; [reflexivity|]. split; [reflexivity|].
  split.
  { unfold calls_of, send_sms_alerts. rewrite HC. cbn [world_after].
    rewrite sms_loop_trace. cbn [ls_world loop_init].
    now rewrite transport_final_recording. }
  split; [exact Hlen|].
  split; [reflexivity|]. split; [reflexivity|].
  split; [rewrite count_sent_failed; exact Hlen|].
  split; intro Hphones; subst rs tos; rewrite Hphones.
  - reflexivity.
  - repeat split.
Qed.

(** C6. When the Twilio package is missing or the credentials are not
    configured, the dispatch of either message calls the provider for no
    recipient and leaves its state untouched; the risk alert answers
    with a single notice of its own (a warning to configure the
    credentials, or a note to install the package) and binds no
    counters; this outcome differs from every outcome of a ready
    channel, in particular from the report for an empty recipient list,
    whose counters are bound to 0 and 0. *)
Theorem dispatch_channel_unavailable (TWILIO_AVAILABLE : bool)
  (ss : session_state) (body : string) (w : world) :
  channel_ready TWILIO_AVAILABLE ss = None ->
  let r := dispatch_alert Client messages_create TWILIO_AVAILABLE ss body w in
  let r0 := dispatch_all_clear Client messages_create TWILIO_AVAILABLE ss body w in
  attempts r = [] /\ world_after r = w /\ counters r = None
  /\ (sidebar r
      = [sb_warning "⚠️ Configure Twilio credentials above to send SMS alerts"]
      \/ sidebar r
         = [sb_info "📧 Alert summary generated! Install Twilio package for SMS functionality."])
  /\ (forall creds body' w',
        dispatch_alert Client messages_create true (configured creds) body' w'
        <> r)
  /\ (forall creds body' w',
        manager_phones creds = [] ->
        Client (account_sid creds) (auth_token creds) = None ->
        let report :=
          dispatch_alert Client messages_create true (configured creds) body' w' in
        counters report = Some (0, 0)%nat /\ sidebar report = []
        /\ counters report <> counters r)
  /\ attempts r0 = [] /\ world_after r0 = w
  /\ (forall creds body' w',
        dispatch_all_clear Client messages_create true (configured creds) body' w'
        <> r0).
Proof.
  intros Hready r r0. subst r r0. unfold dispatch_alert, dispatch_all_clear.
  rewrite Hready. cbn [attempts world_after counters sidebar].
  split; [reflexivity|]. split; [reflexivity|]. split; [reflexivity|].
  split.
  { destruct TWILIO_AVAILABLE; [left | right]; reflexivity. }
  split.
  { intros creds body' w'. cbn [channel_ready]. unfold send_sms_alerts.
    destruct (Client (account_sid creds) (auth_token creds)) as [e|].
    - intro E. apply (f_equal sidebar) in E. simpl in E.
      destruct TWILIO_AVAILABLE; discriminate.
    - intro E. apply (f_equal counters) in E. discriminate. }
  split.
  { intros creds body' w' Hphones HC. cbn [channel_ready].
    rewrite (send_sms_alerts_trace creds body' w' HC), Hphones. simpl.
    split; [reflexivity|]. split; [reflexivity|]. discriminate. }
  split; [reflexivity|]. split; [reflexivity|].
  intros creds body' w'. cbn [channel_ready]. unfold send_all_clear_sms.
  destruct (Client (account_sid creds) (auth_token creds)) as [e|].
  - intro E. apply (f_equal sidebar) in E. discriminate.
  - destruct (all_clear_loop messages_create creds body'
                (manager_phones creds) w' []) as [[w'' called] [e|]];
      intro E; apply (f_equal sidebar) in E; discriminate.
Qed.

(** C10. In the loop of the risk alert the two counters add up to the
    number of non-empty recipients handled so far, after every prefix of
    the list: an iteration on a non-empty entry adds one to exactly one
    of them, an iteration on an empty entry changes nothing; so the
    counters of a finished dispatch add up to the number of non-empty
    recipients of the list. *)
Theorem sent_plus_failed_counts_attempts (creds : twilio_creds)
  (body : string) (w : world) :
  (forall k,
     let st := sms_loop messages_create creds body
                 (firstn k (manager_phones creds)) (loop_init w) in
     (sent_count st + failed_count st
      = List.length (filter truthy (firstn k (manager_phones creds))))%nat)
  /\ (forall st phone,
        let st' := send_one messages_create creds body st phone in
        if truthy phone
        then (sent_count st' = sent_count st + 1
              /\ failed_count st' = failed_count st)%nat
             \/ (sent_count st' = sent_count st
                 /\ failed_count st' = failed_count st + 1)%nat
        else st' = st)
  /\ (forall sent failed,
        counters (dispatch_alert Client messages_create true (configured creds)
                    body w) = Some (sent, failed) ->
        (sent + failed
         = List.length (filter truthy (manager_phones creds)))%nat)
  /\ (Client (account_sid creds) (auth_token creds) = None ->
      exists sent failed,
        counters (dispatch_alert Client messages_create true (configured creds)
                    body w) = Some (sent, failed)).
Proof.
  split; [|split; [|split]].
  - intros k st. subst st. rewrite sms_loop_trace. simpl.
    rewrite count_sent_failed. apply transport_results_length.
  - intros st phone st'. subst st'. unfold send_one.
    destruct (truthy phone); [|reflexivity].
    destruct (messages_create body (phone_number creds) phone (ls_world st))
      as [w' [e|]]; simpl; [right | left]; split; reflexivity.
  - intros sent failed. cbn [dispatch_alert channel_ready].
    unfold send_sms_alerts.
    destruct (Client (account_sid creds) (auth_token creds)) as [e|];
      [discriminate|].
    cbn [counters]. intro E. inversion E; subst. rewrite sms_loop_trace. simpl.
    rewrite count_sent_failed. apply transport_results_length.
  - intro HC. cbn [dispatch_alert channel_ready].
    rewrite (send_sms_alerts_trace creds body w HC). simpl. eauto.
Qed.

End DispatchClaims.

(** ** The claims at concrete inputs *)

Example str_decimal : str 0 = "0" /\ str 7 = "7" /\ str 120 = "120".
Proof. repeat split. Qed.

Example last4_examples :
  last4 "+919876543210" = "3210" /\ last4 "+10" = "+10"
  /\ last4 "" = "" /\ last4 "+1555é12" = "5é12"
  /\ last4 "☎+91 98765" = "8765" /\ last4 "12☎" = "12☎".
Proof. repeat split; vm_compute; reflexivity. Qed.

(** The mean of a column with elements is its sum over its count. *)
Example sample_fleet_means :
  m_total (aggregate sample_fleet) = 3%nat
  /\ m_avg_uptime (aggregate sample_fleet) = Fin ((0 + 92 + 80 + 97) / 3).
Proof. split; reflexivity. Qed.

(** The two scenarios of the specification. *)
Example scenario_low_battery_only :
  evaluateRisk [unit_low_battery] default_config sample_now
  = [(unit_low_battery, "Low Battery; ")].
Proof. vm_compute. reflexivity. Qed.

Example scenario_three_reasons :
  evaluateRisk [unit_three_reasons] default_config sample_now
  = [(unit_three_reasons, "Multiple Faults; Low Uptime; Service Due; ")].
Proof. vm_compute. reflexivity. Qed.

Example sample_fleet_flags :
  map snd (evaluateRisk sample_fleet default_config sample_now)
  = ["Low Battery; "; "Multiple Faults; Low Uptime; Service Due; "].
Proof. vm_compute. reflexivity. Qed.



(** C2. The all-clear loop has no handler of its own: with the
    recipients "+1000" (refused by the provider) and "+1001" (accepted),
    the first failure ends the loop, "+1001" is never attempted and no
    counters exist; the risk alert on the same input attempts both and
    ends with one sent and one failed. *)
Theorem all_clear_stops_at_first_failure :
  attempts
    (dispatch_all_clear sample_Client flaky_create true
       (configured (sample_creds ["+1000"; "+1001"]))
       (all_clear_msg sample_strftime sample_format_1f 3 (Fin 0) 0 sample_now) 0%nat)
  = ["+1000"]
  /\ sidebar
       (dispatch_all_clear sample_Client flaky_create true
          (configured (sample_creds ["+1000"; "+1001"]))
          (all_clear_msg sample_strftime sample_format_1f 3 (Fin 0) 0 sample_now) 0%nat)
     = [sb_error "❌ Error: unreachable"]
  /\ counters
       (dispatch_all_clear sample_Client flaky_create true
          (configured (sample_creds ["+1000"; "+1001"]))
          (all_clear_msg sample_strftime sample_format_1f 3 (Fin 0) 0 sample_now) 0%nat)
     = None
  /\ attempts
       (dispatch_alert sample_Client flaky_create true
          (configured (sample_creds ["+1000"; "+1001"])) "alert" 0%nat)
     = ["+1000"; "+1001"]
  /\ counters
       (dispatch_alert sample_Client flaky_create true
          (configured (sample_creds ["+1000"; "+1001"])) "alert" 0%nat)
     = Some (1, 1)%nat.
Proof. repeat split; vm_compute; reflexivity. Qed.

Lemma dispatch_attempts_each_nonblank_once_witness :
  sample_Client "AC0" "token" = None
  /\ attempts
       (dispatch_alert sample_Client flaky_create true
          (configured (sample_creds [""; "+1000"; ""; "+1001"])) "alert" 0%nat)
     = ["+1000"; "+1001"]
  /\ world_after
       (dispatch_alert sample_Client flaky_create true
          (configured (sample_creds [""; "+1000"; ""; "+1001"])) "alert" 0%nat)
     = 2%nat
  /\ calls_of
       (dispatch_alert sample_Client (recording_create flaky_create) true
          (configured (sample_creds [""; "+1000"; ""; "+1001"])) "alert"
          (0%nat, []))
     = [("alert", "+15550000", "+1000"); ("alert", "+15550000", "+1001")]
  /\ counters
       (dispatch_alert sample_Client flaky_create true
          (configured (sample_creds [""; "+1000"; ""; "+1001"])) "alert" 0%nat)
     = Some (1, 1)%nat.
Proof.
  split; [reflexivity|].
  destruct (dispatch_attempts_each_nonblank_once nat sample_Client flaky_create
              (sample_creds [""; "+1000"; ""; "+1001"]) "alert" 0%nat eq_refl)
    as (H1 & H2 & H3 & _ & _ & H6 & _).
  split; [exact H1|]. split; [exact H2|]. split; [exact H3 | exact H6].
Defined.

Lemma dispatch_channel_unavailable_witness :
  channel_ready true not_configured = None
  /\ attempts
       (dispatch_alert sample_Client flaky_create true not_configured "alert" 0%nat)
     = []
  /\ counters
       (dispatch_alert sample_Client flaky_create true not_configured "alert" 0%nat)
     = None.
Proof.
  split; [reflexivity|].
  destruct (dispatch_channel_unavailable nat sample_Client flaky_create
              true not_configured "alert" 0%nat eq_refl)
    as (H1 & _ & H3 & _).
  split; [exact H1 | exact H3].
Defined.

(** * Further properties of the script *)

(** ** Hub filter and default selection *)

Lemma isin_rows (df : list scooter) (selected : list string) :
  isin (map hub df) selected
  = map (fun u => existsb (String.eqb (hub u)) selected) df.
Proof. unfold isin. now rewrite map_map. Qed.

Lemma filtered_scooters_filter df selected :
  filtered_scooters df selected
  = filter (fun u => existsb (String.eqb (hub u)) selected) df.
Proof. unfold filtered_scooters. rewrite isin_rows. apply boolean_index_map. Qed.

Lemma existsb_eqb_In (x : string) (l : list string) :
  existsb (String.eqb x) l = true <-> In x l.
Proof.
  rewrite existsb_exists. split.
  - intros [y [Hy E]]. apply String.eqb_eq in E. now subst.
  - intro H. exists x. split; [exact H | apply String.eqb_refl].
Qed.

(** X1. The hub filter keeps, in the order of the table, exactly the
    scooters whose hub is one of the selected names; with no hub
    selected nothing is left, with every hub selected nothing is lost,
    and filtering twice changes nothing. *)
Theorem filtered_scooters_by_hub (df : list scooter) (selected : list string) :
  (forall u, In u (filtered_scooters df selected)
             <-> In u df /\ In (hub u) selected)
  /\ filtered_scooters df selected
     = filter (fun u => existsb (String.eqb (hub u)) selected) df
  /\ filtered_scooters df [] = []
  /\ filtered_scooters df (map hub df) = df
  /\ filtered_scooters (filtered_scooters df selected) selected
     = filtered_scooters df selected
  /\ (total_fleet (filtered_scooters df selected) <= total_fleet df)%nat.
Proof.
  rewrite !filtered_scooters_filter.
  split; [|split; [reflexivity|split; [|split; [|split]]]].
  - intro u. rewrite filter_In, existsb_eqb_In. tauto.
  - induction df; simpl; auto.
  - apply forallb_filter_id. apply forallb_forall. intros u Hu.
    apply existsb_eqb_In. now apply in_map.
  - apply forallb_filter_id. apply forallb_forall. intros u Hu.
    apply filter_In in Hu. tauto.
  - unfold total_fleet. apply filter_length_le.
Qed.

Lemma unique_from_In seen col x :
  In x (unique_from seen col) <-> In x col /\ ~ In x seen.
Proof.
  revert seen. induction col as [|y col IH]; intro seen; simpl; [tauto|].
  destruct (existsb (String.eqb y) seen) eqn:E.
  - apply existsb_eqb_In in E. rewrite IH. split.
    + tauto.
    + intros [[->|H] Hn]; tauto.
  - assert (Hy : ~ In y seen).
    { intro H. apply existsb_eqb_In in H. congruence. }
    simpl. rewrite IH. simpl. split.
    + intros [->|[H Hn]]; [tauto|]. split; [tauto|]. intro; apply Hn; tauto.
    + intros [[->|H] Hn]; [tauto|].
      destruct (string_dec y x) as [->|Hne]; [tauto|]. right. split; [exact H|].
      intros [Hc|Hc]; [congruence | tauto].
Qed.

Lemma unique_from_NoDup seen col : NoDup (unique_from seen col).
Proof.
  revert seen. induction col as [|y col IH]; intro seen; simpl.
  - constructor.
  - destruct (existsb (String.eqb y) seen); [apply IH|].
    constructor; [|apply IH].
    rewrite unique_from_In. simpl. tauto.
Qed.

Lemma NoDup_firstn {A : Type} (n : nat) (l : list A) :
  NoDup l -> NoDup (firstn n l).
Proof.
  revert n. induction l as [|x l IH]; intros [|n] H; simpl; try constructor.
  - inversion H; subst. intro Hin. apply H2.
    rewrite <- (firstn_skipn n l). apply in_or_app. now left.
  - inversion H; subst. now apply IH.
Qed.

(** X2. The default selection of the multiselect holds at most three
    hub names, without repetition, each the hub of some scooter of the
    table; when the table is not empty the default view contains its
    first scooter, so the fleet shown is not empty and its two means are
    numbers, not [NaN]. *)
Theorem default_hubs_view (df : list scooter) :
  df <> [] ->
  (List.length (default_hubs df) <= 3)%nat
  /\ NoDup (default_hubs df)
  /\ (forall h, In h (default_hubs df) -> exists u, In u df /\ hub u = h)
  /\ (exists u rest, df = u :: rest
                     /\ In u (filtered_scooters df (default_hubs df)))
  /\ (0 < m_total (aggregate (filtered_scooters df (default_hubs df))))%nat
  /\ m_avg_revenue (aggregate (filtered_scooters df (default_hubs df))) <> NaN
  /\ m_avg_uptime (aggregate (filtered_scooters df (default_hubs df))) <> NaN.
Proof.
  intro Hne. destruct df as [|u rest]; [congruence|].
  assert (Hu : In u (filtered_scooters (u :: rest) (default_hubs (u :: rest)))).
  { rewrite filtered_scooters_filter. apply filter_In. split; [now left|].
    apply existsb_eqb_In. unfold default_hubs, unique. simpl. now left. }
  assert (Hpos : (0 < List.length
                        (filtered_scooters (u :: rest) (default_hubs (u :: rest))))%nat).
  { destruct (filtered_scooters (u :: rest) (default_hubs (u :: rest)));
      [contradiction | simpl; lia]. }
  split; [|split; [|split; [|split; [|split; [|split]]]]].
  - unfold default_hubs. rewrite length_firstn. lia.
  - unfold default_hubs. apply NoDup_firstn, unique_from_NoDup.
  - intros h Hh. unfold default_hubs in Hh.
    assert (Hin : In h (unique (map hub (u :: rest)))).
    { rewrite <- (firstn_skipn 3). apply in_or_app. now left. }
    apply unique_from_In in Hin. destruct Hin as [Hin _].
    apply in_map_iff in Hin. destruct Hin as [v [E Hv]]. eauto.
  - exists u, rest. split; [reflexivity | exact Hu].
  - exact Hpos.
  - simpl. unfold avg_revenue, series_mean. rewrite length_map.
    apply Nat.ltb_lt in Hpos. rewrite Hpos. discriminate.
  - simpl. unfold avg_uptime, series_mean. rewrite length_map.
    apply Nat.ltb_lt in Hpos. rewrite Hpos. discriminate.
Qed.

(** ** Aggregator *)

Lemma count_status_filter (s : Status) (df : list scooter) :
  count_status s df
  = List.length (filter (fun u => Status_eqb (status u) s) df).
Proof.
  unfold count_status, series_eq_status. rewrite map_map.
  now rewrite boolean_index_map.
Qed.

(** X3. The status cards partition the fleet: the numbers of scooters on
    trip, available, in maintenance and in alert add up to the total,
    so none of them exceeds it. *)
Theorem status_counts_partition (df : list scooter) :
  (active_scooters df + available_scooters df + maintenance_scooters df
   + count_status Alert df = total_fleet df)%nat
  /\ (active_scooters df <= total_fleet df)%nat.
Proof.
  assert (H : (active_scooters df + available_scooters df
               + maintenance_scooters df + count_status Alert df
               = total_fleet df)%nat).
  { unfold active_scooters, available_scooters, maintenance_scooters, total_fleet.
    rewrite !count_status_filter.
    induction df as [|u df IH]; simpl; [reflexivity|].
    destruct (status u); simpl; lia. }
  split; [exact H | lia].
Qed.






(** ** RiskEvaluator *)

Lemma whole_days_mono (n1 n2 last : Z) :
  (n1 <= n2)%Z -> (whole_days n1 last <= whole_days n2 last)%Z.
Proof.
  intro H. unfold whole_days. apply Z.div_le_mono; [reflexivity | lia].
Qed.

Lemma triggered_later (t : ReasonTag) cfg n1 n2 u :
  (n1 <= n2)%Z -> triggered t cfg n1 u = true -> triggered t cfg n2 u = true.
Proof.
  intros H. destruct t; simpl; auto.
  rewrite !Z.ltb_lt. pose proof (whole_days_mono n1 n2 (last_service u) H). lia.
Qed.

Lemma any_triggered_tag cfg now u :
  any_triggered cfg now u = true -> exists t, triggered t cfg now u = true.
Proof.
  unfold any_triggered. rewrite existsb_exists. intros [t [_ H]]. eauto.
Qed.

Lemma has_tag_empty (t : ReasonTag) : has_tag t "" = false.
Proof. destruct t; reflexivity. Qed.

(** X6. The script reads the clock once when it selects the high-risk
    rows and once more when it writes the reasons.  As long as the
    second reading is not earlier than the first, the rows are the ones
    selected at the first reading, every row carries each reason that
    selected it, and no row is left with an empty reason text. *)
Theorem high_risk_reasons_with_later_clock (cfg : ThresholdConfig)
  (now_filter now_tag : Z) (df : list scooter) :
  (now_filter <= now_tag)%Z ->
  map fst (high_risk cfg now_filter now_tag df)
  = filter (any_triggered cfg now_filter) df
  /\ (forall u r, In (u, r) (high_risk cfg now_filter now_tag df) ->
        r <> ""
        /\ (forall t, triggered t cfg now_filter u = true -> has_tag t r = true)
        /\ (forall t, has_tag t r = triggered t cfg now_tag u)).
Proof.
  intro Hclock. rewrite high_risk_rowwise. split.
  - rewrite map_map. simpl. apply map_id.
  - intros u r Hin. apply in_map_iff in Hin. destruct Hin as [u' [E Hu]].
    inversion E; subst u' r. apply filter_In in Hu. destruct Hu as [_ Hany].
    assert (Htag : forall t, triggered t cfg now_filter u = true ->
                             has_tag t (row_reason cfg now_tag u) = true).
    { intros t Ht. rewrite has_tag_row_reason.
      now apply (triggered_later t cfg now_filter now_tag). }
    split; [|split].
    + destruct (any_triggered_tag _ _ _ Hany) as [t Ht].
      intro Hempty. specialize (Htag t Ht). rewrite Hempty, has_tag_empty in Htag.
      discriminate.
    + exact Htag.
    + intro t. apply has_tag_row_reason.
Qed.

(** X7. The table on the page shows at most ten rows: the first ten
    high-risk rows in their order, with their ids and reasons unchanged;
    with ten rows or fewer nothing is dropped. *)
Theorem high_risk_display_first_ten (hr : list (scooter * string)) :
  List.length (high_risk_display hr) = Nat.min 10 (List.length hr)
  /\ map col_scooter_id (high_risk_display hr)
     = firstn 10 (map (fun row => scooter_id (fst row)) hr)
  /\ map col_risk_factors (high_risk_display hr) = firstn 10 (map snd hr)
  /\ ((List.length hr <= 10)%nat ->
      map col_risk_factors (high_risk_display hr) = map snd hr)
  /\ (forall units cfg now,
        map col_scooter_id (high_risk_display (evaluateRisk units cfg now))
        = firstn 10 (map scooter_id (filter (any_triggered cfg now) units))).
Proof.
  unfold high_risk_display.
  assert (H3 : map col_risk_factors
                 (firstn 10
                    (map (fun row =>
                            {| col_scooter_id := scooter_id (fst row);
                               col_hub := hub (fst row);
                               col_battery := battery_level (fst row);
                               col_risk_factors := snd row |}) hr))
               = firstn 10 (map snd hr)).
  { rewrite <- firstn_map, map_map. reflexivity. }
  split; [|split; [|split; [exact H3|split]]].
  - rewrite length_firstn, length_map. reflexivity.
  - rewrite <- firstn_map, map_map. reflexivity.
  - intro Hlen. rewrite H3. apply firstn_all2. now rewrite length_map.
  - intros units cfg now. rewrite <- firstn_map, map_map. simpl.
    rewrite evaluateRisk_rowwise, map_map. reflexivity.
Qed.

Lemma length_filter_any {A : Type} (p1 p2 p3 p4 : A -> bool) (l : list A) :
  (forall x, In x l -> p1 x || p2 x || p3 x || p4 x = true) ->
  (List.length l
   <= List.length (filter p1 l) + List.length (filter p2 l)
      + List.length (filter p3 l) + List.length (filter p4 l))%nat.
Proof.
  induction l as [|x l IH]; intro H; simpl; [lia|].
  assert (Hx : p1 x || p2 x || p3 x || p4 x = true) by (apply H; now left).
  assert (Hl : forall y, In y l -> p1 y || p2 y || p3 y || p4 y = true)
    by (intros y Hy; apply H; now right).
  specialize (IH Hl).
  destruct (p1 x), (p2 x), (p3 x), (p4 x); simpl in *; try discriminate; lia.
Qed.

(** X8. In the breakdown of the alert text, built from the flagged units
    of the evaluator, no count exceeds the number of flagged units, and
    the four counts together are at least that number, since every
    flagged unit has at least one reason. *)
Theorem breakdown_counts_cover_flagged (units : list scooter)
  (cfg : ThresholdConfig) (now : Z) :
  (forall t, (breakdown_count t cfg now (evaluateRisk units cfg now)
              <= List.length (evaluateRisk units cfg now))%nat)
  /\ (List.length (evaluateRisk units cfg now)
      <= breakdown_count LowBattery cfg now (evaluateRisk units cfg now)
         + breakdown_count MultipleFaults cfg now (evaluateRisk units cfg now)
         + breakdown_count LowUptime cfg now (evaluateRisk units cfg now)
         + breakdown_count ServiceOverdue cfg now (evaluateRisk units cfg now))%nat.
Proof.
  split.
  - intro t. rewrite breakdown_count_rows. apply filter_length_le.
  - rewrite !breakdown_count_rows. apply length_filter_any.
    intros [u r] Hin. simpl.
    rewrite evaluateRisk_rowwise in Hin. apply in_map_iff in Hin.
    destruct Hin as [u' [E Hu]]. inversion E; subst u' r.
    apply filter_In in Hu. destruct Hu as [_ Hany].
    unfold any_triggered, all_tags in Hany. simpl in Hany.
    rewrite orb_false_r, !orb_assoc in Hany. exact Hany.
Qed.

Lemma filter_length_impl {A : Type} (p q : A -> bool) (l : list A) :
  (forall x, In x l -> p x = true -> q x = true) ->
  (List.length (filter p l) <= List.length (filter q l))%nat.
Proof.
  induction l as [|x l IH]; intro H; simpl; [lia|].
  assert (Hl : forall y, In y l -> p y = true -> q y = true)
    by (intros y Hy; apply H; now right).
  specialize (IH Hl).
  destruct (p x) eqn:Ep.
  - rewrite (H x (or_introl eq_refl) Ep). simpl. lia.
  - destruct (q x); simpl; lia.
Qed.

Lemma length_filter_map {A B : Type} (f : A -> B) (p : B -> bool) (l : list A) :
  List.length (filter p (map f l)) = List.length (filter (fun x => p (f x)) l).
Proof.
  induction l as [|x l IH]; simpl; [reflexivity|].
  destruct (p (f x)); simpl; now rewrite IH.
Qed.

Lemma length_filter_filter_le {A : Type} (p q : A -> bool) (l : list A) :
  (List.length (filter p (filter q l)) <= List.length (filter p l))%nat.
Proof.
  induction l as [|x l IH]; simpl; [lia|].
  destruct (q x), (p x) eqn:Ep; simpl; rewrite ?Ep; simpl; lia.
Qed.

Lemma alerts_count_filter cfg df :
  alerts_count cfg df
  = List.length
      (filter (fun u => Qlt_bool (battery_level u) (inject_Z (battery_threshold cfg))
                        || Status_eqb (status u) Alert) df).
Proof.
  unfold alerts_count, series_lt, series_eq_status. rewrite !map_map.
  rewrite (mask_or_map (fun u => Qlt_bool (battery_level u) _)
             (fun u => Status_eqb (status u) Alert)).
  now rewrite boolean_index_map.
Qed.

(** X9. The "Active Alerts" card counts the scooters with a low battery
    or the status Alert: it never exceeds the fleet size, and it is at
    least the number of scooters in status Alert and at least the
    "Low Battery" count of the alert breakdown. *)
Theorem alerts_count_bounds (cfg : ThresholdConfig) (now : Z)
  (df : list scooter) :
  (alerts_count cfg df <= total_fleet df)%nat
  /\ (count_status Alert df <= alerts_count cfg df)%nat
  /\ (breakdown_count LowBattery cfg now (evaluateRisk df cfg now)
      <= alerts_count cfg df)%nat.
Proof.
  rewrite alerts_count_filter, count_status_filter. split; [|split].
  - apply filter_length_le.
  - apply filter_length_impl. intros u _ H. rewrite H. apply orb_true_r.
  - rewrite breakdown_count_rows, evaluateRisk_rowwise.
    rewrite length_filter_map. simpl.
    transitivity (List.length (filter (fun u => triggered LowBattery cfg now u) df)).
    + apply length_filter_filter_le.
    + apply filter_length_impl. intros u _ H. simpl in H. now rewrite H.
Qed.



Lemma triggered_looser (t : ReasonTag) cfg1 cfg2 now u :
  (battery_threshold cfg1 <= battery_threshold cfg2)%Z ->
  (service_days cfg2 <= service_days cfg1)%Z ->
  triggered t cfg1 now u = true -> triggered t cfg2 now u = true.
Proof.
  intros Hb Hd. destruct t; simpl; auto.
  - rewrite !Qlt_bool_iff. intro H.
    apply Qlt_le_trans with (inject_Z (battery_threshold cfg1)); [exact H|].
    now rewrite <- Zle_Qle.
  - rewrite !Z.ltb_lt. lia.
Qed.

(** X11. The sliders act monotonically: raising the battery threshold or
    lowering the service interval never unflags a unit and never removes
    one of its reasons, so the number of flagged units does not
    decrease. *)
Theorem evaluateRisk_monotone_in_thresholds (units : list scooter)
  (cfg1 cfg2 : ThresholdConfig) (now : Z) :
  (battery_threshold cfg1 <= battery_threshold cfg2)%Z ->
  (service_days cfg2 <= service_days cfg1)%Z ->
  (forall u r1, In (u, r1) (evaluateRisk units cfg1 now) ->
     exists r2, In (u, r2) (evaluateRisk units cfg2 now)
                /\ forall t, has_tag t r1 = true -> has_tag t r2 = true)
  /\ (List.length (evaluateRisk units cfg1 now)
      <= List.length (evaluateRisk units cfg2 now))%nat.
Proof.
  intros Hb Hd.
  assert (Hany : forall u, any_triggered cfg1 now u = true ->
                           any_triggered cfg2 now u = true).
  { intros u H. destruct (any_triggered_tag _ _ _ H) as [t Ht].
    unfold any_triggered. apply existsb_exists. exists t. split.
    - destruct t; simpl; auto.
    - now apply (triggered_looser t cfg1 cfg2). }
  rewrite !evaluateRisk_rowwise. split.
  - intros u r1 Hin. apply in_map_iff in Hin. destruct Hin as [u' [E Hu]].
    inversion E; subst u' r1. apply filter_In in Hu. destruct Hu as [Hu H1].
    exists (row_reason cfg2 now u). split.
    + apply in_map_iff. exists u. split; [reflexivity|].
      apply filter_In. split; [exact Hu | now apply Hany].
    + intro t. rewrite !has_tag_row_reason.
      now apply triggered_looser.
  - rewrite !length_map. apply filter_length_impl. intros u _. apply Hany.
Qed.

(** ** Data generation *)

Lemma Qlt_bool_false (x y : Q) : Qlt_bool x y = false <-> (y <= x)%Q.
Proof.
  unfold Qlt_bool, Qle. rewrite Z.ltb_ge. tauto.
Qed.

Lemma py_clamp_bounds (x : Q) :
  (10 <= py_max 10 (py_min 100 x))%Q /\ (py_max 10 (py_min 100 x) <= 100)%Q.
Proof.
  unfold py_max, py_min.
  destruct (Qlt_bool x 100) eqn:E1.
  - destruct (Qlt_bool 10 x) eqn:E2.
    + apply Qlt_bool_iff in E1, E2. split; lra.
    + split; lra.
  - destruct (Qlt_bool 10 100) eqn:E2; [split; lra|].
    discriminate.
Qed.

(** X12. Whatever the normal sample is, the battery level of a generated
    scooter lies between 10 and 100, and a sample already in that range
    is kept; hence with the battery slider at its minimum of 10 no
    generated scooter is ever flagged for a low battery. *)
Theorem generated_battery_is_clamped (id : string) (n0 : Z) (d : scooter_draws) :
  (10 <= battery_level (generate_scooter id n0 d))%Q
  /\ (battery_level (generate_scooter id n0 d) <= 100)%Q
  /\ ((10 <= d_battery d)%Q -> (d_battery d <= 100)%Q ->
      (battery_level (generate_scooter id n0 d) == d_battery d)%Q)
  /\ (forall cfg now,
        (battery_threshold cfg <= min_value battery_threshold_slider)%Z ->
        triggered LowBattery cfg now (generate_scooter id n0 d) = false).
Proof.
  destruct (py_clamp_bounds (d_battery d)) as [Hlo Hhi].
  split; [exact Hlo|]. split; [exact Hhi|]. split.
  - intros H1 H2. simpl. unfold py_max, py_min.
    destruct (Qlt_bool (d_battery d) 100) eqn:E1.
    + destruct (Qlt_bool 10 (d_battery d)) eqn:E2; [reflexivity|].
      apply Qlt_bool_false in E2. lra.
    + apply Qlt_bool_false in E1.
      change (Qlt_bool 10 100) with true. cbv iota. lra.
  - intros cfg now Hb. simpl in Hb. cbn [triggered].
    apply Qlt_bool_false.
    apply Qle_trans with 10%Q; [|exact Hlo].
    change 10%Q with (inject_Z 10). now rewrite <- Zle_Qle.
Qed.

(** X13. With the draws in the ranges of the generator, a generated
    scooter is never flagged for low uptime, whatever the thresholds and
    the time; it is flagged for faults exactly when 3 or 4 faults were
    drawn; and from the instant of generation on it is overdue as soon
    as the service interval is shorter than the drawn age of its last
    service. *)
Theorem generated_scooter_flags (id : string) (n0 : Z) (d : scooter_draws)
  (cfg : ThresholdConfig) (now : Z) :
  draws_in_range d -> (n0 <= now)%Z ->
  triggered LowUptime cfg now (generate_scooter id n0 d) = false
  /\ (triggered MultipleFaults cfg now (generate_scooter id n0 d) = true
      <-> d_faults d = 3%Z \/ d_faults d = 4%Z)
  /\ (d_service_days d <= whole_days now (last_service (generate_scooter id n0 d)))%Z
  /\ ((service_days cfg < d_service_days d)%Z ->
      triggered ServiceOverdue cfg now (generate_scooter id n0 d) = true)
  /\ whole_days n0 (last_service (generate_scooter id n0 d)) = d_service_days d.
Proof.
  intros (Hdays & Hfaults & _ & _ & Hup & _) Hnow.
  assert (Hgen : whole_days n0 (last_service (generate_scooter id n0 d))
                 = d_service_days d).
  { unfold whole_days. simpl.
    replace (n0 - (n0 - d_service_days d * us_per_day))%Z
      with (d_service_days d * us_per_day)%Z by lia.
    apply Z.div_mul. unfold us_per_day. lia. }
  assert (Hage : (d_service_days d
                  <= whole_days now (last_service (generate_scooter id n0 d)))%Z).
  { rewrite <- Hgen at 1. now apply whole_days_mono. }
  split; [|split; [|split; [exact Hage|split; [|exact Hgen]]]].
  - cbn [triggered generate_scooter uptime_percentage].
    now apply Qlt_bool_false.
  - cbn [triggered generate_scooter fault_reports]. rewrite Z.leb_le. lia.
  - intro Hsd. cbn [triggered]. apply Z.ltb_lt. lia.
Qed.

Lemma map_fst_combine {A B : Type} (a : list A) (b : list B) :
  List.length a = List.length b ->
  map (fun p => fst p) (combine a b) = a.
Proof.
  revert b. induction a as [|x a IH]; intros [|y b] H; simpl in *;
    try discriminate; [reflexivity|].
  f_equal. apply IH. lia.
Qed.

#[local] Set Warnings "-abstract-large-number".

Lemma id_round_trip_upto_9999 : forallb id_round_trip (seq 1 9999) = true.
Proof. vm_compute. reflexivity. Qed.

Lemma id_round_trip_ok (i : nat) :
  (1 <= i <= 9999)%nat ->
  id_number ("BNC" ++ zfill 4 (str i)) = Some i
  /\ String.length ("BNC" ++ zfill 4 (str i)) = 7%nat.
Proof.
  intro Hi.
  pose proof id_round_trip_upto_9999 as H.
  rewrite forallb_forall in H.
  assert (Hin : In i (seq 1 9999)) by (apply in_seq; lia).
  specialize (H i Hin). unfold id_round_trip in H.
  apply andb_true_iff in H. destruct H as [H1 H2].
  apply Nat.eqb_eq in H2. split; [|exact H2].
  destruct (id_number ("BNC" ++ zfill 4 (str i))) as [j|]; [|discriminate].
  apply Nat.eqb_eq in H1. now subst.
Qed.

(** X14. For a fleet of at most 9999 scooters the generated ids are
    pairwise distinct, each has seven characters ("BNC" and four
    digits), the number can be read back from the id, and the scooters
    built carry these ids in order. *)
Theorem scooter_ids_distinct (fleet_size : nat) :
  (fleet_size <= 9999)%nat ->
  List.length (scooter_ids fleet_size) = fleet_size
  /\ NoDup (scooter_ids fleet_size)
  /\ Forall (fun id => String.length id = 7%nat) (scooter_ids fleet_size)
  /\ (forall i, (1 <= i <= fleet_size)%nat ->
        nth_error (scooter_ids fleet_size) (i - 1)
        = Some ("BNC" ++ zfill 4 (str i))
        /\ id_number ("BNC" ++ zfill 4 (str i)) = Some i)
  /\ (forall now draws, List.length draws = fleet_size ->
        map scooter_id (generate_scooters fleet_size now draws)
        = scooter_ids fleet_size).
Proof.
  intro Hn. unfold scooter_ids.
  split; [|split; [|split; [|split]]].
  - now rewrite length_map, length_seq.
  - apply NoDup_map_NoDup_ForallPairs; [|apply seq_NoDup].
    intros i j Hi Hj E. apply in_seq in Hi, Hj.
    destruct (id_round_trip_ok i) as [Ei _]; [lia|].
    destruct (id_round_trip_ok j) as [Ej _]; [lia|].
    rewrite E, Ej in Ei. now inversion Ei.
  - apply Forall_forall. intros id Hid. apply in_map_iff in Hid.
    destruct Hid as [i [<- Hi]]. apply in_seq in Hi.
    apply id_round_trip_ok. lia.
  - intros i Hi. split; [|apply id_round_trip_ok; lia].
    rewrite nth_error_map, nth_error_seq.
    replace (i - 1 <? fleet_size)%nat with true
      by (symmetry; apply Nat.ltb_lt; lia).
    simpl. repeat f_equal. lia.
  - intros now draws Hlen. unfold generate_scooters, scooter_ids.
    rewrite map_map. simpl. apply map_fst_combine.
    now rewrite length_map, length_seq.
Qed.

(** ** Twilio settings and dispatch *)

Lemma collect_manager_phones_filter (inputs : list string) :
  collect_manager_phones inputs = filter truthy inputs.
Proof.
  unfold collect_manager_phones.
  assert (H : forall acc,
             fold_left
               (fun phones phone =>
                  if truthy phone then (phones ++ [phone])%list else phones)
               inputs acc
             = (acc ++ filter truthy inputs)%list).
  { induction inputs as [|x inputs IH]; intro acc; simpl.
    - now rewrite app_nil_r.
    - rewrite IH. destruct (truthy x); [|reflexivity].
      now rewrite <- app_assoc. }
  apply H.
Qed.

Lemma truthy_iff (s : string) : truthy s = true <-> s <> "".
Proof. destruct s; simpl; split; congruence. Qed.

(** X15. The settings block marks the channel as configured exactly when
    both the account SID and the auth token are non-empty, whatever the
    sender number is (an empty sender number is accepted); the stored
    recipients are the non-empty manager inputs in their order, at most
    three, none of them empty. *)
Theorem twilio_settings_stored (sid token twilio_phone m1 m2 m3 : string) :
  (twilio_settings sid token twilio_phone m1 m2 m3 = not_configured
   <-> sid = "" \/ token = "")
  /\ (sid <> "" -> token <> "" ->
      twilio_settings sid token twilio_phone m1 m2 m3
      = configured {| account_sid := sid; auth_token := token;
                      phone_number := twilio_phone;
                      manager_phones := filter truthy [m1; m2; m3] |})
  /\ (forall creds,
        twilio_settings sid token twilio_phone m1 m2 m3 = configured creds ->
        ~ In "" (manager_phones creds)
        /\ (List.length (manager_phones creds) <= 3)%nat
        /\ (forall phone, In phone (manager_phones creds)
                          <-> In phone [m1; m2; m3] /\ phone <> "")
        /\ account_sid creds <> "" /\ auth_token creds <> "").
Proof.
  unfold twilio_settings. rewrite collect_manager_phones_filter.
  split; [|split].
  - destruct sid, token; simpl; split; intro H;
      try discriminate; try reflexivity; try tauto;
      destruct H; discriminate.
  - intros Hs Ht. apply truthy_iff in Hs, Ht. now rewrite Hs, Ht.
  - intros creds H.
    destruct (truthy sid) eqn:Es, (truthy token) eqn:Et; cbn [andb] in H;
      try discriminate.
    inversion H; subst creds; clear H. cbn [manager_phones account_sid auth_token].
    split; [|split; [|split; [|split]]].
    + intro Hin. change (In "" (filter truthy [m1; m2; m3])) in Hin.
      apply filter_In in Hin. destruct Hin as [_ Hin]. discriminate.
    + change (List.length (filter truthy [m1; m2; m3]) <= 3)%nat.
      apply Nat.le_trans with (List.length [m1; m2; m3]);
        [apply filter_length_le | simpl; lia].
    + intro phone.
      change (In phone (filter truthy [m1; m2; m3])
              <-> In phone [m1; m2; m3] /\ phone <> "").
      rewrite filter_In, truthy_iff. tauto.
    + now apply truthy_iff.
    + now apply truthy_iff.
Qed.

Section DispatchMore.

Variable world : Type.
Variable Client : string -> string -> option string.
Variable messages_create : string -> string -> string -> world -> world * option string.

Lemma send_one_recording creds body phone (st : loop_state world)
  (log : list (string * string * string)) :
  send_one (recording_create messages_create) creds body
    {| ls_world := (ls_world st, log); sent_count := sent_count st;
       failed_count := failed_count st; ls_sidebar := ls_sidebar st;
       ls_attempts := ls_attempts st |} phone
  = {| ls_world :=
         (ls_world (send_one messages_create creds body st phone),
          (log ++ map (fun to => (body, phone_number creds, to))
                    (filter truthy [phone]))%list);
       sent_count := sent_count (send_one messages_create creds body st phone);
       failed_count := failed_count (send_one messages_create creds body st phone);
       ls_sidebar := ls_sidebar (send_one messages_create creds body st phone);
       ls_attempts := ls_attempts (send_one messages_create creds body st phone) |}.
Proof.
  unfold send_one. cbn [filter].
  destruct (truthy phone).
  - cbn [ls_world]. unfold recording_create. cbn [fst snd].
    destruct (messages_create body (phone_number creds) phone (ls_world st))
      as [w' [e|]]; reflexivity.
  - cbn [map]. now rewrite app_nil_r.
Qed.

Lemma sms_loop_recording creds body phones (st : loop_state world)
  (log : list (string * string * string)) :
  sms_loop (recording_create messages_create) creds body phones
    {| ls_world := (ls_world st, log); sent_count := sent_count st;
       failed_count := failed_count st; ls_sidebar := ls_sidebar st;
       ls_attempts := ls_attempts st |}
  = {| ls_world :=
         (ls_world (sms_loop messages_create creds body phones st),
          (log ++ map (fun to => (body, phone_number creds, to))
                    (filter truthy phones))%list);
       sent_count := sent_count (sms_loop messages_create creds body phones st);
       failed_count := failed_count (sms_loop messages_create creds body phones st);
       ls_sidebar := ls_sidebar (sms_loop messages_create creds body phones st);
       ls_attempts := ls_attempts (sms_loop messages_create creds body phones st) |}.
Proof.
  revert st log. induction phones as [|phone phones IH]; intros st log.
  - cbn [sms_loop fold_left filter map]. now rewrite app_nil_r.
  - change (phone :: phones) with ([phone] ++ phones)%list.
    rewrite !sms_loop_app, filter_app, map_app, app_assoc.
    unfold sms_loop at 2 4 6 8 10 12. cbn [fold_left].
    rewrite send_one_recording. apply IH.
Qed.

(** X17. Every call the risk-alert loop makes to the provider passes the
    alert text as body and the configured Twilio number as sender, one
    call per non-empty recipient in the order of the list; recording the
    calls changes nothing else in the run. *)
Theorem sms_loop_calls (creds : twilio_creds) (body : string)
  (phones : list string) (w : world) :
  snd (ls_world (sms_loop (recording_create messages_create) creds body phones
                   (loop_init (w, []))))
  = map (fun to => (body, phone_number creds, to)) (filter truthy phones)
  /\ fst (ls_world (sms_loop (recording_create messages_create) creds body phones
                      (loop_init (w, []))))
     = ls_world (sms_loop messages_create creds body phones (loop_init w))
  /\ ls_sidebar (sms_loop (recording_create messages_create) creds body phones
                   (loop_init (w, [])))
     = ls_sidebar (sms_loop messages_create creds body phones (loop_init w)).
Proof.
  pose proof (sms_loop_recording creds body phones (loop_init w) []) as H.
  unfold loop_init in *. cbn [ls_world sent_count failed_count ls_sidebar
    ls_attempts] in H. rewrite H. cbn [ls_world ls_sidebar fst snd app].
  repeat split.
Qed.

End DispatchMore.

Section AllClearLoop.

Variable world : Type.
Variable Client : string -> string -> option string.
Variable messages_create : string -> string -> string -> world -> world * option string.

Lemma all_clear_loop_trace creds body phones w called :
  all_clear_loop messages_create creds body phones w called
  = (transport_final messages_create body (phone_number creds)
       (firstn (calls_until_error
                  (transport_results messages_create body (phone_number creds)
                     (filter truthy phones) w))
               (filter truthy phones)) w,
     (called
      ++ firstn (calls_until_error
                   (transport_results messages_create body (phone_number creds)
                      (filter truthy phones) w))
                (filter truthy phones))%list,
     first_error (transport_results messages_create body (phone_number creds)
                    (filter truthy phones) w)).
Proof.
  revert w called. induction phones as [|phone phones IH]; intros w called.
  - simpl. now rewrite app_nil_r.
  - cbn [all_clear_loop filter]. destruct (truthy phone); [|apply IH].
    cbn [transport_results].
    destruct (messages_create body (phone_number creds) phone w) as [w' [e|]] eqn:E;
      cbn [fst snd calls_until_error first_error firstn transport_final].
    + rewrite E. reflexivity.
    + rewrite IH, E. cbn [fst]. now rewrite <- app_assoc.
Qed.

Lemma calls_until_error_le (rs : list (option string)) :
  (calls_until_error rs <= List.length rs)%nat.
Proof.
  induction rs as [|[e|] rs IH]; simpl; lia.
Qed.

Lemma first_error_none (rs : list (option string)) :
  first_error rs = None -> calls_until_error rs = List.length rs.
Proof.
  induction rs as [|[e|] rs IH]; simpl; intro H;
    [reflexivity | discriminate | now rewrite IH].
Qed.

Lemma first_error_some (rs : list (option string)) (e : string) :
  first_error rs = Some e ->
  nth_error rs (calls_until_error rs - 1) = Some (Some e)
  /\ (forall i, (i < calls_until_error rs - 1)%nat -> nth_error rs i = Some None).
Proof.
  induction rs as [|[e'|] rs IH]; simpl; intro H.
  - discriminate.
  - inversion H; subst. split; [reflexivity|]. intros i Hi. lia.
  - destruct (IH H) as [H1 H2].
    assert (Hpos : (1 <= calls_until_error rs)%nat).
    { destruct rs as [|[x|] rs']; simpl in *; [discriminate | lia | lia]. }
    rewrite Nat.sub_0_r. split.
    + destruct (calls_until_error rs) as [|k]; [lia|].
      simpl in H1. rewrite Nat.sub_0_r in H1. exact H1.
    + intros [|i] Hi; [reflexivity|]. simpl. apply H2. lia.
Qed.

(** X18. The all-clear loop calls the provider for the non-empty
    recipients in order and stops at the first call that raises: the
    recipients attempted are a prefix of the non-empty ones; when no
    call raises all of them are attempted and the result is the single
    success notice; when one raises it is the last call made, every
    call before it succeeded, and the result is the single error notice
    with its text. *)
Theorem all_clear_loop_stops_at_first_error (creds : twilio_creds)
  (body : string) (w : world) :
  Client (account_sid creds) (auth_token creds) = None ->
  let tos := filter truthy (manager_phones creds) in
  let rs := transport_results messages_create body (phone_number creds) tos w in
  let r := send_all_clear_sms Client messages_create creds body w in
  attempts r = firstn (calls_until_error rs) tos
  /\ (exists rest, tos = (attempts r ++ rest)%list)
  /\ (first_error rs = None ->
      attempts r = tos
      /\ sidebar r = [sb_success "✅ All-clear notification sent!"])
  /\ (forall e, first_error rs = Some e ->
        sidebar r = [sb_error ("❌ Error: " ++ e)]
        /\ nth_error rs (List.length (attempts r) - 1) = Some (Some e)
        /\ (forall i, (i < List.length (attempts r) - 1)%nat ->
                      nth_error rs i = Some None)).
Proof.
  intros HC tos rs r. subst r. unfold send_all_clear_sms. rewrite HC.
  rewrite all_clear_loop_trace. fold tos. fold rs.
  assert (Hlen : List.length rs = List.length tos)
    by apply transport_results_length.
  assert (Hk : (calls_until_error rs <= List.length tos)%nat)
    by (rewrite <- Hlen; apply calls_until_error_le).
  assert (Hatt : forall e' sb,
             attempts
               (match first_error rs with
                | Some e0 =>
                    {| world_after :=
                         transport_final messages_create body (phone_number creds)
                           (firstn (calls_until_error rs) tos) w;
                       attempts := ([] ++ firstn (calls_until_error rs) tos)%list;
                       sidebar := [sb_error ("❌ Error: " ++ e0)];
                       counters := None |}
                | None =>
                    {| world_after :=
                         transport_final messages_create body (phone_number creds)
                           (firstn (calls_until_error rs) tos) w;
                       attempts := ([] ++ firstn (calls_until_error rs) tos)%list;
                       sidebar := sb;
                       counters := e' |}
                end)
             = firstn (calls_until_error rs) tos).
  { intros e' sb. destruct (first_error rs); reflexivity. }
  rewrite Hatt. split; [reflexivity|]. split; [|split].
  - exists (skipn (calls_until_error rs) tos). symmetry. apply firstn_skipn.
  - intro Hnone. rewrite Hnone. cbn [sidebar]. split; [|reflexivity].
    rewrite (first_error_none rs Hnone), Hlen. apply firstn_all.
  - intros e He. rewrite He. cbn [sidebar]. split; [reflexivity|].
    rewrite length_firstn, Nat.min_l by exact Hk.
    now apply first_error_some.
Qed.

End AllClearLoop.

Section SendAlertsFacts.

Variable world : Type.
Variable Client : string -> string -> option string.
Variable messages_create : string -> string -> string -> world -> world * option string.
Variable strftime : Z -> string.
Variable format_1f : pyfloat -> string.

Lemma send_sms_alerts_calls creds body (w : world) :
  calls_of (send_sms_alerts Client (recording_create messages_create)
              creds body (w, []))
  = match Client (account_sid creds) (auth_token creds) with
    | Some _ => []
    | None => map (fun to => (body, phone_number creds, to))
                  (filter truthy (manager_phones creds))
    end.
Proof.
  unfold calls_of.
  destruct (Client (account_sid creds) (auth_token creds)) as [e|] eqn:HC.
  - unfold send_sms_alerts. now rewrite HC.
  - rewrite (send_sms_alerts_trace _ Client _ creds body (w, []) HC).
    cbn [world_after]. now rewrite transport_final_recording.
Qed.

Lemma send_all_clear_sms_calls creds body (w : world) :
  exists k,
    calls_of (send_all_clear_sms Client (recording_create messages_create)
                creds body (w, []))
    = map (fun to => (body, phone_number creds, to))
          (firstn k (filter truthy (manager_phones creds))).
Proof.
  unfold calls_of, send_all_clear_sms.
  destruct (Client (account_sid creds) (auth_token creds)) as [e|].
  - exists 0%nat. reflexivity.
  - rewrite all_clear_loop_trace.
    eexists.
    destruct (first_error _); cbn [world_after];
      rewrite transport_final_recording; reflexivity.
Qed.

(** X19. The action "Send Alerts" sends one kind of text only: every
    call to the provider carries the risk text when there are high-risk
    units and the all-clear text when there are none, always from the
    configured Twilio number and to a non-empty stored recipient; the
    preview is shown for the risk text only; and nothing is sent when
    the SMS button is not clicked or the channel is not ready. *)
Theorem send_alerts_sends_one_kind (TWILIO_AVAILABLE : bool)
  (ss : session_state) (sms_clicked : bool) (cfg : ThresholdConfig)
  (now_count now_stamp : Z) (high_risk : list (scooter * string))
  (filtered : list scooter) (w : world) :
  let run := send_alerts Client (recording_create messages_create)
               strftime format_1f TWILIO_AVAILABLE ss sms_clicked cfg
               now_count now_stamp high_risk filtered (w, []) in
  let text := if (0 <? List.length high_risk)%nat
              then alert_summary strftime cfg now_count now_stamp high_risk
              else all_clear_msg strftime format_1f (total_fleet filtered)
                     (utilization_rate filtered) (active_scooters filtered)
                     now_stamp in
  Forall (fun call =>
            fst (fst call) = text
            /\ exists creds, ss = configured creds
                             /\ snd (fst call) = phone_number creds
                             /\ In (snd call) (manager_phones creds)
                             /\ snd call <> "")
         (calls_of (snd run))
  /\ (fst run = if (0 <? List.length high_risk)%nat then Some text else None)
  /\ (sms_clicked = false -> calls_of (snd run) = [])
  /\ (channel_ready TWILIO_AVAILABLE ss = None -> calls_of (snd run) = []).
Proof.
  intros run text. subst run text. unfold send_alerts.
  assert (Hcalls : forall creds body k,
             ss = configured creds ->
             Forall (fun call : string * string * string =>
                       fst (fst call) = body
                       /\ exists creds0, ss = configured creds0
                             /\ snd (fst call) = phone_number creds0
                             /\ In (snd call) (manager_phones creds0)
                             /\ snd call <> "")
                    (map (fun to => (body, phone_number creds, to))
                         (firstn k (filter truthy (manager_phones creds))))).
  { intros creds body k Hss. apply Forall_forall. intros call Hin.
    apply in_map_iff in Hin. destruct Hin as [to [<- Hto]].
    assert (Hto' : In to (filter truthy (manager_phones creds))).
    { rewrite <- (firstn_skipn k). apply in_or_app. now left. }
    apply filter_In in Hto'. destruct Hto' as [Hin Ht].
    cbn [fst snd]. split; [reflexivity|]. exists creds.
    repeat split; auto. now apply truthy_iff. }
  assert (Hready : forall creds, channel_ready TWILIO_AVAILABLE ss = Some creds ->
                                 ss = configured creds).
  { intros creds H. unfold channel_ready in H.
    destruct TWILIO_AVAILABLE; [|discriminate].
    destruct ss; try discriminate. now inversion H. }
  destruct (0 <? List.length high_risk)%nat.
  - cbn [fst snd].
    destruct (channel_ready TWILIO_AVAILABLE ss) as [creds|] eqn:Hr.
    + destruct sms_clicked.
      * rewrite send_sms_alerts_calls.
        split; [|split; [reflexivity|split; intro; discriminate]].
        destruct (Client (account_sid creds) (auth_token creds)); [constructor|].
        rewrite <- (firstn_all (filter truthy (manager_phones creds))).
        apply Hcalls. now apply Hready.
      * split; [constructor|]. repeat split.
    + split; [constructor|]. repeat split.
  - cbn [fst snd]. unfold calls_of. cbn [world_after].
    destruct (channel_ready TWILIO_AVAILABLE ss) as [creds|] eqn:Hr.
    + destruct sms_clicked.
      * destruct (send_all_clear_sms_calls creds
                    (all_clear_msg strftime format_1f (total_fleet filtered)
                       (utilization_rate filtered) (active_scooters filtered)
                       now_stamp) w) as [k Hk].
        unfold calls_of in Hk. rewrite Hk.
        split; [|split; [reflexivity|split; intro; discriminate]].
        apply Hcalls. now apply Hready.
      * split; [constructor|]. repeat split.
    + split; [constructor|]. repeat split.
Qed.

End SendAlertsFacts.

(** ** Sync Fleet Data *)

(** X20. The progress loop gives the progress bar the values 1 to 100 in
    order, never a value outside the bar's range, and the status text
    only moves forward through its four phases: 30 iterations of
    connecting, 30 of fetching, 20 of updating and 20 of finalizing. *)
Theorem sync_progress_phases :
  map fst sync_progress = seq 1 100
  /\ Forall (fun p => (1 <= fst p <= 100)%nat) sync_progress
  /\ map snd sync_progress
     = (repeat "Connecting to fleet API..." 30
        ++ repeat "Fetching scooter locations..." 30
        ++ repeat "Updating battery status..." 20
        ++ repeat "Finalizing sync..." 20)%list.
Proof.
  split; [|split].
  - vm_compute. reflexivity.
  - unfold sync_progress. apply Forall_forall. intros p Hp.
    apply in_map_iff in Hp. destruct Hp as [i [<- Hi]]. apply in_seq in Hi.
    cbn [fst]. lia.
  - vm_compute. reflexivity.
Qed.

(** ** Hub performance table *)

Lemma insert_sorted_In (x y : string) (l : list string) :
  In y (insert_sorted x l) <-> y = x \/ In y l.
Proof.
  induction l as [|z l IH]; simpl.
  - intuition.
  - destruct (String.leb x z); simpl; [intuition|]. rewrite IH. intuition.
Qed.

Lemma sort_strings_In (y : string) (l : list string) :
  In y (sort_strings l) <-> In y l.
Proof.
  induction l as [|x l IH]; simpl; [tauto|].
  rewrite insert_sorted_In, IH. intuition.
Qed.

Lemma insert_sorted_NoDup (x : string) (l : list string) :
  ~ In x l -> NoDup l -> NoDup (insert_sorted x l).
Proof.
  induction l as [|z l IH]; simpl; intros Hx Hl.
  - constructor; [tauto | constructor].
  - destruct (String.leb x z).
    + constructor; [simpl; tauto | exact Hl].
    + inversion Hl; subst. constructor.
      * rewrite insert_sorted_In. intros [->|H]; tauto.
      * apply IH; tauto.
Qed.

Lemma sort_strings_NoDup (l : list string) :
  NoDup l -> NoDup (sort_strings l).
Proof.
  induction l as [|x l IH]; simpl; intro H; [constructor|].
  inversion H; subst. apply insert_sorted_NoDup.
  - now rewrite sort_strings_In.
  - now apply IH.
Qed.

Lemma insert_sorted_Sorted (x : string) (l : list string) :
  Sorted in_order l -> Sorted in_order (insert_sorted x l).
Proof.
  induction l as [|z l IH]; simpl; intro H.
  - repeat constructor.
  - destruct (String.leb x z) eqn:E.
    + constructor; [exact H | constructor; exact E].
    + inversion H; subst. constructor; [now apply IH|].
      assert (Hzx : in_order z x).
      { destruct (String.leb_total x z) as [Hc|Hc]; [congruence | exact Hc]. }
      destruct l as [|y l]; simpl.
      * constructor. exact Hzx.
      * destruct (String.leb x y); constructor; [exact Hzx|].
        inversion H3; subst. assumption.
Qed.

Lemma sort_strings_Sorted (l : list string) :
  Sorted in_order (sort_strings l).
Proof.
  induction l as [|x l IH]; simpl; [constructor|].
  now apply insert_sorted_Sorted.
Qed.

Lemma indicator_sum (a : string) (keys : list string) :
  NoDup keys -> In a keys ->
  list_sum (map (fun k => if String.eqb a k then 1%nat else 0%nat) keys) = 1%nat.
Proof.
  induction keys as [|k keys IH]; simpl; intros Hnd Hin; [contradiction|].
  inversion Hnd; subst. destruct (String.eqb a k) eqn:E.
  - apply String.eqb_eq in E. subst k.
    assert (Hz : list_sum
                   (map (fun k => if String.eqb a k then 1%nat else 0%nat) keys)
                 = 0%nat).
    { clear IH Hin Hnd H2. induction keys as [|k keys IH]; simpl; [reflexivity|].
      destruct (String.eqb a k) eqn:E.
      - apply String.eqb_eq in E. subst. exfalso. apply H1. now left.
      - apply IH. intro H. apply H1. now right. }
    rewrite Hz. reflexivity.
  - destruct Hin as [->|Hin]; [rewrite String.eqb_refl in E; discriminate|].
    now rewrite IH.
Qed.

Lemma group_sizes_sum (keys : list string) (l : list scooter) :
  NoDup keys -> (forall u, In u l -> In (hub u) keys) ->
  list_sum (map (fun h => List.length
                            (filter (fun u => String.eqb (hub u) h) l)) keys)
  = List.length l.
Proof.
  intros Hnd. induction l as [|x l IH]; intro Hcover.
  - simpl. clear. induction keys; simpl; auto.
  - assert (Hl : forall u, In u l -> In (hub u) keys)
      by (intros u Hu; apply Hcover; now right).
    specialize (IH Hl).
    assert (Hx : In (hub x) keys) by (apply Hcover; now left).
    assert (Hsplit :
              list_sum (map (fun h => List.length
                                        (filter (fun u => String.eqb (hub u) h)
                                           (x :: l))) keys)
              = (list_sum (map (fun k => if String.eqb (hub x) k
                                         then 1%nat else 0%nat) keys)
                 + list_sum (map (fun h => List.length
                                             (filter (fun u => String.eqb (hub u) h) l))
                               keys))%nat).
    { clear. unfold list_sum.
      induction keys as [|k keys IHk]; [reflexivity|].
      cbn [map fold_right]. rewrite IHk. cbn [filter].
      destruct (String.eqb (hub x) k); cbn [List.length]; lia. }
    rewrite Hsplit, IH, (indicator_sum (hub x) keys Hnd Hx). reflexivity.
Qed.

(** X21. The hub table has one row for each hub that occurs among the
    scooters shown and for no other, in increasing order of the names
    and without repetition; every row counts at least one scooter and
    has a mean uptime that is a number; the counts of the rows add up to
    the size of the fleet; an empty fleet gives an empty table. *)
Theorem hub_agg_rollup (filtered : list scooter) :
  (forall h, In h (map hr_hub (hub_agg filtered))
             <-> exists u, In u filtered /\ hub u = h)
  /\ NoDup (map hr_hub (hub_agg filtered))
  /\ Sorted in_order (map hr_hub (hub_agg filtered))
  /\ Forall (fun row => (1 <= hr_scooters row)%nat /\ hr_uptime row <> NaN
                        /\ hr_scooters row
                           = List.length (filter (fun u => String.eqb (hub u) (hr_hub row))
                                            filtered))
            (hub_agg filtered)
  /\ list_sum (map hr_scooters (hub_agg filtered)) = total_fleet filtered
  /\ hub_agg [] = [].
Proof.
  assert (Hkeys : map hr_hub (hub_agg filtered)
                  = sort_strings (unique (map hub filtered))).
  { unfold hub_agg. rewrite map_map. cbn [hr_hub]. apply map_id. }
  assert (Hgroup : forall h,
             boolean_index filtered (series_eq_string (map hub filtered) h)
             = filter (fun u => String.eqb (hub u) h) filtered).
  { intro h. unfold series_eq_string. rewrite map_map. apply boolean_index_map. }
  assert (Hin : forall h, In h (sort_strings (unique (map hub filtered)))
                          <-> exists u, In u filtered /\ hub u = h).
  { intro h. rewrite sort_strings_In. unfold unique. rewrite unique_from_In.
    rewrite in_map_iff. simpl. split.
    - intros [[u [E Hu]] _]. eauto.
    - intros [u [Hu E]]. split; [eauto | tauto]. }
  split; [|split; [|split; [|split; [|split]]]].
  - intro h. rewrite Hkeys. apply Hin.
  - rewrite Hkeys. apply sort_strings_NoDup, unique_from_NoDup.
  - rewrite Hkeys. apply sort_strings_Sorted.
  - unfold hub_agg. apply Forall_forall. intros row Hrow.
    apply in_map_iff in Hrow. destruct Hrow as [h [<- Hh]].
    cbn [hr_scooters hr_uptime hr_hub]. rewrite Hgroup.
    apply Hin in Hh. destruct Hh as [u [Hu E]].
    assert (Hmem : In u (filter (fun v => String.eqb (hub v) h) filtered)).
    { apply filter_In. split; [exact Hu|]. subst h. apply String.eqb_refl. }
    assert (Hpos : (1 <= List.length
                          (filter (fun v => String.eqb (hub v) h) filtered))%nat).
    { destruct (filter (fun v => String.eqb (hub v) h) filtered);
        [contradiction | simpl; lia]. }
    rewrite !length_map. split; [exact Hpos|]. split; [|reflexivity].
    unfold series_mean. rewrite length_map.
    replace (0 <? List.length (filter (fun v => String.eqb (hub v) h) filtered))%nat
      with true by (symmetry; apply Nat.ltb_lt; lia).
    discriminate.
  - unfold hub_agg, total_fleet. rewrite map_map. cbn [hr_scooters].
    rewrite <- (group_sizes_sum (sort_strings (unique (map hub filtered))) filtered).
    + f_equal. apply map_ext. intro h. now rewrite length_map, Hgroup.
    + apply sort_strings_NoDup, unique_from_NoDup.
    + intros u Hu. apply Hin. eauto.
  - reflexivity.
Qed.

(** ** The further properties at concrete inputs *)

Lemma default_hubs_view_witness :
  sample_fleet <> []
  /\ (List.length (default_hubs sample_fleet) <= 3)%nat
  /\ m_avg_uptime (aggregate (filtered_scooters sample_fleet
                                (default_hubs sample_fleet))) <> NaN.
Proof.
  assert (H : sample_fleet <> []) by discriminate.
  destruct (default_hubs_view sample_fleet H) as (H1 & _ & _ & _ & _ & _ & H7).
  split; [exact H|]. split; [exact H1 | exact H7].
Defined.

Lemma high_risk_reasons_with_later_clock_witness :
  (sample_now <= sample_now + 1)%Z
  /\ map fst (high_risk default_config sample_now (sample_now + 1) sample_fleet)
     = filter (any_triggered default_config sample_now) sample_fleet.
Proof.
  assert (H : (sample_now <= sample_now + 1)%Z) by lia.
  split; [exact H|].
  apply (high_risk_reasons_with_later_clock default_config sample_now
           (sample_now + 1) sample_fleet H).
Defined.

(** When the second reading of the clock is earlier than the first, a
    row selected for its service age can be left without any reason. *)
Example clock_going_back_leaves_empty_reason :
  high_risk default_config (100 * us_per_day) (80 * us_per_day)
    [sample_unit "BNC0009" 90 0 97 (30 * us_per_day)]
  = [(sample_unit "BNC0009" 90 0 97 (30 * us_per_day), "")].
Proof. vm_compute. reflexivity. Qed.

Lemma evaluateRisk_monotone_in_thresholds_witness :
  (battery_threshold default_config <= battery_threshold loose_config)%Z
  /\ (service_days loose_config <= service_days default_config)%Z
  /\ (List.length (evaluateRisk sample_fleet default_config sample_now)
      <= List.length (evaluateRisk sample_fleet loose_config sample_now))%nat.
Proof.
  assert (Hb : (battery_threshold default_config
                <= battery_threshold loose_config)%Z) by (simpl; lia).
  assert (Hd : (service_days loose_config <= service_days default_config)%Z)
    by (simpl; lia).
  split; [exact Hb|]. split; [exact Hd|].
  apply (evaluateRisk_monotone_in_thresholds sample_fleet default_config
           loose_config sample_now Hb Hd).
Defined.

Lemma sample_draws_in_range : draws_in_range sample_draws.
Proof.
  unfold draws_in_range, sample_draws; simpl.
  repeat split; try lia; unfold Qle, Qlt; simpl; lia.
Defined.

Lemma generated_scooter_flags_witness :
  draws_in_range sample_draws
  /\ triggered LowUptime default_config sample_now
       (generate_scooter "BNC0001" sample_now sample_draws) = false
  /\ whole_days sample_now
       (last_service (generate_scooter "BNC0001" sample_now sample_draws))
     = 70%Z.
Proof.
  split; [exact sample_draws_in_range|].
  destruct (generated_scooter_flags "BNC0001" sample_now sample_draws
              default_config sample_now sample_draws_in_range (Z.le_refl _))
    as (H1 & _ & _ & _ & H5).
  split; [exact H1 | exact H5].
Defined.

Lemma scooter_ids_distinct_witness :
  (500 <= 9999)%nat /\ NoDup (scooter_ids 500)
  /\ List.length (scooter_ids 500) = 500%nat.
Proof.
  assert (H : (500 <= 9999)%nat) by (apply Nat.leb_le; vm_compute; reflexivity).
  split; [exact H|].
  destruct (scooter_ids_distinct 500 H) as (H1 & H2 & _).
  split; [exact H2 | exact H1].
Defined.

Example first_and_last_ids :
  nth_error (scooter_ids 500) 0 = Some "BNC0001"
  /\ nth_error (scooter_ids 500) 499 = Some "BNC0500".
Proof. split; vm_compute; reflexivity. Qed.

Lemma all_clear_loop_stops_at_first_error_witness :
  sample_Client "AC0" "token" = None
  /\ attempts (send_all_clear_sms sample_Client flaky_create
                 (sample_creds ["+1001"; ""; "+1000"; "+1002"]) "all clear" 0%nat)
     = ["+1001"; "+1000"].
Proof.
  split; [reflexivity|].
  destruct (all_clear_loop_stops_at_first_error nat sample_Client flaky_create
              (sample_creds ["+1001"; ""; "+1000"; "+1002"]) "all clear" 0%nat
              eq_refl) as (H1 & _).
  exact H1.
Defined.
